(** * express-session-etcd3: the session store adapter and its contract

    A shallow embedding of [src/express-session-etcd3.ts] (class
    [Etcd3Store]) together with the parts of its environment that the
    adapter's behaviour depends on:

    - [Num]: ECMAScript numbers (IEEE 754 binary64, on [spec_float]),
      with [Number(string)], [Number::toString] and [Math.floor];
    - [Js]: ECMAScript values, [typeof], truthiness, property access,
      completions (normal / throw) and settled promises;
    - [Json]: [JSON.stringify] and [JSON.parse];
    - [Client]: the etcd3 client, as an in-memory key-value store whose
      requests can be made to throw or to reject;
    - the run monad [M]: what an operation does to the store and lets its
      caller see, as a trace of events;
    - [Etcd3Store]: the adapter itself, method by method;
    - [Spec]: TTL resolution as the specification words it.

    Strings are byte strings: the UTF-8 encoding of the JavaScript string.
    The [debug] channel of the adapter is a diagnostic side channel and is
    not part of the model. *)

From Stdlib Require Import ZArith Strings.String Strings.Ascii Numbers.DecimalString.
From Stdlib Require Import Floats.SpecFloat.
From stdpp Require Import gmap strings list sorting.

Open Scope Z_scope.
Set Warnings "-register-all".

(** ** Characters and substrings *)

Definition code (c : ascii) : Z := Z.of_N (N_of_ascii c).

Definition is_digit (c : ascii) : bool := (48 <=? code c) && (code c <=? 57).

(** Value of a digit in any radix up to 16; [None] for other bytes. *)
Definition digit_value (c : ascii) : option Z :=
  let n := code c in
  if (48 <=? n) && (n <=? 57) then Some (n - 48)
  else if (97 <=? n) && (n <=? 102) then Some (n - 87)
  else if (65 <=? n) && (n <=? 70) then Some (n - 55)
  else None.

Definition is_radix_digit (radix : Z) (c : ascii) : bool :=
  match digit_value c with Some d => d <? radix | None => false end.

(** Longest prefix of bytes satisfying [p], and the remainder. *)
Fixpoint span (p : ascii -> bool) (s : string) : string * string :=
  match s with
  | String c r => if p c then let '(a, b) := span p r in (String c a, b) else (EmptyString, s)
  | EmptyString => (EmptyString, EmptyString)
  end.

Fixpoint digits_value (radix : Z) (acc : Z) (s : string) : Z :=
  match s with
  | String c r => digits_value radix (acc * radix + default 0 (digit_value c)) r
  | EmptyString => acc
  end.

Definition is_empty (s : string) : bool :=
  match s with EmptyString => true | _ => false end.

(** [s] begins with [word]. *)
Fixpoint starts_with (word s : string) : bool :=
  match word with
  | EmptyString => true
  | String a w =>
      match s with
      | String b r => Ascii.eqb a b && starts_with w r
      | EmptyString => false
      end
  end.

Fixpoint drop_string (n : nat) (s : string) : string :=
  match n, s with
  | S n', String _ r => drop_string n' r
  | _, _ => s
  end.

(** ** Numbers *)

Module Num.

(** An ECMAScript Number is an IEEE 754 binary64 value. *)
Definition prec : Z := 53.
Definition emax : Z := 1024.
Definition JsNumber : Type := spec_float.

Definition NaN : JsNumber := S754_nan.
Definition Infinity : JsNumber := S754_infinity false.

(** The double nearest to [n / d] (ties to even), for [0 <= n] and [0 < d]. *)
Definition nearest (neg : bool) (n d : Z) : JsNumber :=
  if n =? 0 then S754_zero neg else
  let t := Z.max 0 (prec + 2 + Z.log2 d - Z.log2 n) in
  let '(q, r) := Z.div_eucl (Z.shiftl n t) d in
  binary_round_aux prec emax neg q (- t) (new_location d r).

(** The double nearest to [m * 10 ^ e10], for [0 <= m].  The two shortcuts
    are exact: beyond them the value rounds to infinity, resp. to zero. *)
Definition of_decimal (neg : bool) (m e10 : Z) : JsNumber :=
  if m =? 0 then S754_zero neg
  else if 310 <? e10 then S754_infinity neg
  else if e10 + Z.log2 m + 1 <? -330 then S754_zero neg
  else if 0 <=? e10 then nearest neg (m * 10 ^ e10) 1
  else nearest neg m (10 ^ (- e10)).

Definition of_Z (z : Z) : JsNumber := nearest (z <? 0) (Z.abs z) 1.

(** [Object.is] on numbers: the same value, [NaN] included, [+0] and [-0]
    apart. *)
Definition same (x y : JsNumber) : bool :=
  match x, y with
  | S754_zero a, S754_zero b | S754_infinity a, S754_infinity b => Bool.eqb a b
  | S754_nan, S754_nan => true
  | S754_finite a m e, S754_finite b m' e' => Bool.eqb a b && Pos.eqb m m' && (e =? e')
  | _, _ => false
  end.

Definition is_nan (x : JsNumber) : bool :=
  match x with S754_nan => true | _ => false end.

Definition is_zero (x : JsNumber) : bool :=
  match x with S754_zero _ => true | _ => false end.

Definition is_finite (x : JsNumber) : bool :=
  match x with S754_zero _ | S754_finite _ _ _ => true | _ => false end.

(** [x / y] and [x > y]. *)
Definition div (x y : JsNumber) : JsNumber := SFdiv prec emax x y.
Definition gt (x y : JsNumber) : bool := SFltb y x.

(** [Math.floor]. *)
Definition floor (x : JsNumber) : JsNumber :=
  match x with
  | S754_finite s m e =>
      if 0 <=? e then x else
      let q := Z.shiftr (Zpos m) (- e) in
      let q' := if Z.shiftl q (- e) =? Zpos m then q else q + 1 in
      if s then nearest true q' 1 else nearest false q 1
  | _ => x
  end.

(** [Math.min] of two numbers: [NaN] if either is, [-0] below [+0]. *)
Definition min (x y : JsNumber) : JsNumber :=
  match SFcompare x y with
  | None => NaN
  | Some Lt => x
  | Some Gt => y
  | Some Eq => match x with S754_zero true => x | _ => y end
  end.

(** *** [Number::toString] (radix 10)

    After ECMA-262, Number::toString.  For a finite non-zero [x] it takes the least [k] and the digits [s] with
    [10^(k-1) <= s < 10^k] such that [s * 10^(n-k)] reads back as [x], the
    closest such [s] if there are two, and lays the digits out. *)

Definition string_of_Z (z : Z) : string :=
  NilZero.string_of_uint (N.to_uint (Z.to_N z)).

Definition zeros (n : Z) : string :=
  String.concat EmptyString (replicate (Z.to_nat n) "0"%string).

(** [x * 10^j] for the fraction [x = n / d]. *)
Definition scale10 (x : Z * Z) (j : Z) : Z * Z :=
  let '(n, d) := x in if 0 <=? j then (n * 10 ^ j, d) else (n, d * 10 ^ (- j)).

Definition ge_pow10 (x : Z * Z) (k : Z) : bool :=
  let '(n, d) := scale10 x (- k) in d <=? n.

Fixpoint adjust_up (fuel : nat) (x : Z * Z) (n : Z) : Z :=
  match fuel with
  | O => n
  | S f => if ge_pow10 x n then adjust_up f x (n + 1) else n
  end.

Fixpoint adjust_down (fuel : nat) (x : Z * Z) (n : Z) : Z :=
  match fuel with
  | O => n
  | S f => if ge_pow10 x (n - 1) then n else adjust_down f x (n - 1)
  end.

(** The [n] with [10^(n-1) <= x < 10^n]. *)
Definition magnitude (x : Z * Z) : Z :=
  let est := (Z.log2 (fst x) - Z.log2 (snd x)) * 30103 / 100000 in
  adjust_down 4 x (adjust_up 4 x est).

Fixpoint shortest (fuel : nat) (k : Z) (x : JsNumber) (v : Z * Z) (n : Z) : Z * Z * Z :=
  let '(a, b) := scale10 v (k - n) in
  let lo := a / b in
  let r := a mod b in
  let norm s := if s =? 10 ^ k then (10 ^ (k - 1), k, n + 1) else (s, k, n) in
  let ok s := let '(s', _, n') := norm s in same (of_decimal false s' (n' - k)) x in
  let pick_hi :=
    match Z.compare (2 * r) b with Lt => false | Gt => true | Eq => Z.odd lo end in
  match ok lo, ok (lo + 1) with
  | true, true => norm (if pick_hi then lo + 1 else lo)
  | true, false => norm lo
  | false, true => norm (lo + 1)
  | false, false =>
      match fuel with O => norm lo | S f => shortest f (k + 1) x v n end
  end.

Definition layout (s k n : Z) : string :=
  let ds := string_of_Z s in
  if (k <=? n) && (n <=? 21) then ds +:+ zeros (n - k)
  else if (0 <? n) && (n <=? 21) then
    substring 0 (Z.to_nat n) ds +:+ "." +:+ substring (Z.to_nat n) (Z.to_nat (k - n)) ds
  else if (-6 <? n) && (n <=? 0) then "0." +:+ zeros (- n) +:+ ds
  else
    let e := n - 1 in
    let es := (if e <? 0 then "-" else "+") +:+ string_of_Z (Z.abs e) in
    if k =? 1 then ds +:+ "e" +:+ es
    else substring 0 1 ds +:+ "." +:+ substring 1 (Z.to_nat (k - 1)) ds +:+ "e" +:+ es.

Definition toString (x : JsNumber) : string :=
  match x with
  | S754_nan => "NaN"
  | S754_zero _ => "0"
  | S754_infinity s => if s then "-Infinity" else "Infinity"
  | S754_finite s m e =>
      let v := if 0 <=? e then (Zpos m * 2 ^ e, 1) else (Zpos m, 2 ^ (- e)) in
      let '(d, k, n) := shortest 20 1 (S754_finite false m e) v (magnitude v) in
      (if s then "-" else EmptyString) +:+ layout d k n
  end.

(** *** [Number(string)]

    After ECMA-262, StringToNumber.  White space is trimmed on both sides; the empty string is [+0]; [Infinity], decimal
    literals with optional sign, fraction and exponent, and unsigned
    [0x], [0o], [0b] literals are read; anything else is [NaN]. *)

Definition ws1 (c : ascii) : bool :=
  let n := code c in
  (n =? 9) || (n =? 10) || (n =? 11) || (n =? 12) || (n =? 13) || (n =? 32).

(** U+00A0, in UTF-8. *)
Definition ws2 (c1 c2 : ascii) : bool :=
  (code c1 =? 194) && (code c2 =? 160).

(** U+1680, U+2000..U+200A, U+2028, U+2029, U+202F, U+205F, U+3000 and
    U+FEFF, in UTF-8. *)
Definition ws3 (c1 c2 c3 : ascii) : bool :=
  let '(a, b, c) := (code c1, code c2, code c3) in
  (a =? 225) && (b =? 154) && (c =? 128)
  || (a =? 226) && (b =? 128)
     && ((128 <=? c) && (c <=? 138) || (c =? 168) || (c =? 169) || (c =? 175))
  || (a =? 226) && (b =? 129) && (c =? 159)
  || (a =? 227) && (b =? 128) && (c =? 128)
  || (a =? 239) && (b =? 187) && (c =? 191).

Fixpoint skip_ws (s : string) : string :=
  match s with
  | String c1 r1 =>
      if ws1 c1 then skip_ws r1 else
      match r1 with
      | String c2 r2 =>
          if ws2 c1 c2 then skip_ws r2 else
          match r2 with
          | String c3 r3 => if ws3 c1 c2 c3 then skip_ws r3 else s
          | EmptyString => s
          end
      | EmptyString => s
      end
  | EmptyString => s
  end.

(** An optional exponent part [e], [E] with sign and digits; without
    digits nothing is consumed. *)
Definition read_exponent (s : string) : Z * string :=
  match s with
  | String c r =>
      if (code c =? 101) || (code c =? 69) then
        let '(neg, r1) :=
          match r with
          | String c' r' =>
              if code c' =? 45 then (true, r')
              else if code c' =? 43 then (false, r') else (false, r)
          | EmptyString => (false, r)
          end in
        let '(ds, r2) := span is_digit r1 in
        if is_empty ds then (0, s)
        else ((if neg then - digits_value 10 0 ds else digits_value 10 0 ds), r2)
      else (0, s)
  | EmptyString => (0, s)
  end.

(** Digits, optional fraction, optional exponent; at least one digit
    before or after the point. *)
Definition read_decimal (neg : bool) (s : string) : option (JsNumber * string) :=
  let '(ip, r1) := span is_digit s in
  let '(fp, r2) :=
    match r1 with
    | String c r => if code c =? 46 then span is_digit r else (EmptyString, r1)
    | EmptyString => (EmptyString, r1)
    end in
  if is_empty ip && is_empty fp then None
  else
    let '(e, r3) := read_exponent r2 in
    Some (of_decimal neg (digits_value 10 0 (ip +:+ fp)) (e - Z.of_nat (String.length fp)), r3).

Definition read_unsigned (neg : bool) (s : string) : option (JsNumber * string) :=
  if starts_with "Infinity" s then Some (S754_infinity neg, drop_string 8 s)
  else read_decimal neg s.

Definition read_radix (radix : Z) (s : string) : option (JsNumber * string) :=
  let '(ds, r) := span (is_radix_digit radix) s in
  if is_empty ds then None else Some (of_Z (digits_value radix 0 ds), r).

Definition read_numeric (s : string) : option (JsNumber * string) :=
  match s with
  | String c r =>
      if code c =? 45 then read_unsigned true r
      else if code c =? 43 then read_unsigned false r
      else
        let other :=
          match r with
          | String c' r' =>
              if code c =? 48 then
                if (code c' =? 120) || (code c' =? 88) then read_radix 16 r'
                else if (code c' =? 111) || (code c' =? 79) then read_radix 8 r'
                else if (code c' =? 98) || (code c' =? 66) then read_radix 2 r'
                else None
              else None
          | EmptyString => None
          end in
        match other with
        | Some res => Some res
        | None => read_unsigned false s
        end
  | EmptyString => None
  end.

Definition StringToNumber (str : string) : JsNumber :=
  let s := skip_ws str in
  if is_empty s then S754_zero false
  else
    match read_numeric s with
    | Some (x, rest) => if is_empty (skip_ws rest) then x else NaN
    | None => NaN
    end.

End Num.

Abbreviation JsNumber := Num.JsNumber.

(** Numbers are computed with [vm_compute], not unfolded by [cbn]. *)
Arguments Num.nearest : simpl never.
Arguments Num.of_decimal : simpl never.
Arguments Num.of_Z : simpl never.
Arguments Num.div : simpl never.
Arguments Num.gt : simpl never.
Arguments Num.floor : simpl never.
Arguments Num.min : simpl never.
Arguments Num.toString : simpl never.
Arguments Num.StringToNumber : simpl never.

(** ** Values *)

Module Js.

(** The values the adapter can meet: primitives, functions (by identity;
    what calling one does is given where it is called), [Date] objects
    (carried by the ISO 8601 text that [toJSON] returns for them), [Error]
    objects, arrays, and plain objects as their own enumerable properties
    in enumeration order. *)
Inductive JsVal : Type :=
  | JUndefined
  | JNull
  | JBool (b : bool)
  | JNum (n : JsNumber)
  | JStr (s : string)
  | JFun (f : nat)
  | JDate (iso : string)
  | JErr (name message : string)
  | JArr (items : list JsVal)
  | JObj (props : list (string * JsVal)).

Definition TypeError (message : string) : JsVal := JErr "TypeError" message.
Definition SyntaxError (message : string) : JsVal := JErr "SyntaxError" message.

(** The result of evaluating an expression: a value, or a thrown one. *)
Inductive Completion (A : Type) : Type :=
  | Return (a : A)
  | Throw (e : JsVal).
Arguments Return {A} a.
Arguments Throw {A} e.

(** A settled promise. *)
Inductive Promise (A : Type) : Type :=
  | Fulfilled (a : A)
  | Rejected (reason : JsVal).
Arguments Fulfilled {A} a.
Arguments Rejected {A} reason.

Definition typeof (v : JsVal) : string :=
  match v with
  | JUndefined => "undefined"
  | JBool _ => "boolean"
  | JNum _ => "number"
  | JStr _ => "string"
  | JFun _ => "function"
  | JNull | JDate _ | JErr _ _ | JArr _ | JObj _ => "object"
  end.

(** [ToBoolean]. *)
Definition truthy (v : JsVal) : bool :=
  match v with
  | JUndefined | JNull => false
  | JBool b => b
  | JNum n => negb (Num.is_zero n || Num.is_nan n)
  | JStr s => negb (is_empty s)
  | JFun _ | JDate _ | JErr _ _ | JArr _ | JObj _ => true
  end.

Fixpoint lookup_prop (k : string) (ps : list (string * JsVal)) : option JsVal :=
  match ps with
  | (k', v) :: ps' => if String.eqb k k' then Some v else lookup_prop k ps'
  | [] => None
  end.

(** [v.k], for a name [k] that no built-in prototype defines (the adapter
    reads [cookie] and [maxAge] only). *)
Definition get_prop (v : JsVal) (k : string) : Completion JsVal :=
  match v with
  | JUndefined => Throw (TypeError ("Cannot read property '" +:+ k +:+ "' of undefined"))
  | JNull => Throw (TypeError ("Cannot read property '" +:+ k +:+ "' of null"))
  | JObj ps => Return (default JUndefined (lookup_prop k ps))
  | _ => Return JUndefined
  end.

(** A parameter with default value [null]: [undefined] selects the default. *)
Definition default_null (v : JsVal) : JsVal :=
  match v with JUndefined => JNull | _ => v end.

Fixpoint chars (s : string) : list JsVal :=
  match s with
  | String c r => JStr (String c EmptyString) :: chars r
  | EmptyString => []
  end.

(** [Object.values]. *)
Definition Object_values (v : JsVal) : Completion JsVal :=
  match v with
  | JUndefined | JNull => Throw (TypeError "Cannot convert undefined or null to object")
  | JObj ps => Return (JArr (map snd ps))
  | JArr xs => Return (JArr xs)
  | JStr s => Return (JArr (chars s))
  | _ => Return (JArr [])
  end.

(** Structural ("deep") equality: primitives by [Object.is], arrays
    element by element, objects property by property whatever the order. *)
Fixpoint deep_equal (a b : JsVal) : bool :=
  match a, b with
  | JUndefined, JUndefined | JNull, JNull => true
  | JBool x, JBool y => Bool.eqb x y
  | JNum x, JNum y => Num.same x y
  | JStr x, JStr y | JDate x, JDate y => String.eqb x y
  | JFun f, JFun g => Nat.eqb f g
  | JErr n m, JErr n' m' => String.eqb n n' && String.eqb m m'
  | JArr xs, JArr ys =>
      (fix go (xs ys : list JsVal) : bool :=
         match xs, ys with
         | [], [] => true
         | x :: xs', y :: ys' => deep_equal x y && go xs' ys'
         | _, _ => false
         end) xs ys
  | JObj ps, JObj qs =>
      Nat.eqb (List.length ps) (List.length qs)
      && (fix go (ps : list (string * JsVal)) : bool :=
            match ps with
            | [] => true
            | (k, v) :: ps' =>
                match lookup_prop k qs with
                | Some w => deep_equal v w && go ps'
                | None => false
                end
            end) ps
  | _, _ => false
  end.

End Js.
Export Js.

(** ** JSON *)

Module Json.

Definition dquote : ascii := Eval cbv in ascii_of_nat 34.
Definition backslash : ascii := Eval cbv in ascii_of_nat 92.

Definition hex_digit (n : Z) : ascii :=
  ascii_of_N (Z.to_N (if n <? 10 then 48 + n else 87 + n)).

(** *** [JSON.stringify]

    After ECMA-262, JSON.stringify with one argument
    (SerializeJSONProperty, QuoteJSONString).  The text is built in front
    of a continuation [k].  Of the objects with a [toJSON] method only
    [Date] is covered. *)

Definition quote_char (c : ascii) (k : string) : string :=
  let n := code c in
  if n =? 34 then String backslash (String dquote k)
  else if n =? 92 then String backslash (String backslash k)
  else if n =? 8 then String backslash (String "b" k)
  else if n =? 12 then String backslash (String "f" k)
  else if n =? 10 then String backslash (String "n" k)
  else if n =? 13 then String backslash (String "r" k)
  else if n =? 9 then String backslash (String "t" k)
  else if n <? 32 then
    String backslash (String "u" (String "0" (String "0"
      (String (hex_digit (n / 16)) (String (hex_digit (n mod 16)) k)))))
  else String c k.

Fixpoint quote_chars (s : string) (k : string) : string :=
  match s with
  | String c r => quote_char c (quote_chars r k)
  | EmptyString => k
  end.

Definition quote (s : string) (k : string) : string :=
  String dquote (quote_chars s (String dquote k)).

(** Values for which SerializeJSONProperty returns a text. *)
Definition serializable (v : JsVal) : bool :=
  match v with JUndefined | JFun _ => false | _ => true end.

(** The elements of an array and the members of an object, up to and
    with the closing bracket; a member whose value has no text is left
    out. *)
Definition ser_elements (ser : JsVal -> string -> string) (k : string)
  : list JsVal -> string :=
  fix elements (xs : list JsVal) : string :=
    match xs with
    | [] => String "]" k
    | x :: xs' =>
        ser x (match xs' with [] => elements xs' | _ :: _ => String "," (elements xs') end)
    end.

Definition ser_members (ser : JsVal -> string -> string) (k : string)
  : bool -> list (string * JsVal) -> string :=
  fix members (first : bool) (ps : list (string * JsVal)) : string :=
    match ps with
    | [] => String "}" k
    | (key, v) :: ps' =>
        if serializable v then
          let member := quote key (String ":" (ser v (members false ps'))) in
          if first then member else String "," member
        else members first ps'
    end.

Fixpoint ser (v : JsVal) (k : string) : string :=
  match v with
  | JUndefined | JFun _ | JNull => "null" +:+ k
  | JBool b => (if b then "true" else "false") +:+ k
  | JNum n => (if Num.is_finite n then Num.toString n else "null") +:+ k
  | JStr s => quote s k
  | JDate iso => quote iso k
  | JErr _ _ => "{}" +:+ k
  | JArr xs => String "[" (ser_elements ser k xs)
  | JObj ps => String "{" (ser_members ser k true ps)
  end.

Definition stringify (v : JsVal) : option string :=
  if serializable v then Some (ser v EmptyString) else None.

(** *** [JSON.parse]

    After ECMA-262, JSON.parse with one argument, on the grammar of
    ECMA-404. *)

Definition is_ws (c : ascii) : bool :=
  let n := code c in (n =? 32) || (n =? 9) || (n =? 10) || (n =? 13).

Fixpoint skip_ws (s : string) : string :=
  match s with
  | String c r => if is_ws c then skip_ws r else s
  | EmptyString => s
  end.

(** UTF-8 encoding of a code point. *)
Definition utf8 (cp : Z) : string :=
  let b (n : Z) : ascii := ascii_of_N (Z.to_N n) in
  if cp <? 128 then String (b cp) EmptyString
  else if cp <? 2048 then String (b (192 + cp / 64)) (String (b (128 + cp mod 64)) EmptyString)
  else if cp <? 65536 then
    String (b (224 + cp / 4096))
      (String (b (128 + cp / 64 mod 64)) (String (b (128 + cp mod 64)) EmptyString))
  else
    String (b (240 + cp / 262144))
      (String (b (128 + cp / 4096 mod 64))
         (String (b (128 + cp / 64 mod 64)) (String (b (128 + cp mod 64)) EmptyString))).

Definition hex4 (a b c d : ascii) : option Z :=
  match digit_value a, digit_value b, digit_value c, digit_value d with
  | Some x, Some y, Some z, Some w => Some (((x * 16 + y) * 16 + z) * 16 + w)
  | _, _, _, _ => None
  end.

Definition simple_escape (e : ascii) : option ascii :=
  let n := code e in
  if (n =? 34) || (n =? 92) || (n =? 47) then Some e
  else if n =? 98 then Some (ascii_of_nat 8)
  else if n =? 102 then Some (ascii_of_nat 12)
  else if n =? 110 then Some (ascii_of_nat 10)
  else if n =? 114 then Some (ascii_of_nat 13)
  else if n =? 116 then Some (ascii_of_nat 9)
  else None.

(** The low surrogate escape that may follow a high surrogate escape. *)
Definition low_surrogate (s : string) : option Z :=
  match s with
  | String b (String u (String a1 (String a2 (String a3 (String a4 _))))) =>
      if (code b =? 92) && (code u =? 117) then
        match hex4 a1 a2 a3 a4 with
        | Some lo => if (56320 <=? lo) && (lo <=? 57343) then Some lo else None
        | None => None
        end
      else None
  | _ => None
  end.

(** The characters of a string literal, after its opening quote. *)
Fixpoint parse_string (s : string) : option (string * string) :=
  match s with
  | EmptyString => None
  | String c r =>
      if code c =? 34 then Some (EmptyString, r)
      else if code c =? 92 then
        match r with
        | String e r' =>
            match simple_escape e with
            | Some c' =>
                match parse_string r' with
                | Some (str, rest) => Some (String c' str, rest)
                | None => None
                end
            | None =>
                if code e =? 117 then
                  match r' with
                  | String h1 (String h2 (String h3 (String h4 r''))) =>
                      match hex4 h1 h2 h3 h4 with
                      | Some cu =>
                          if (55296 <=? cu) && (cu <=? 56319) then
                            match low_surrogate r'', r'' with
                            | Some lo, String _ (String _ (String _ (String _ (String _ (String _ r3))))) =>
                                match parse_string r3 with
                                | Some (str, rest) =>
                                    Some (utf8 (65536 + (cu - 55296) * 1024 + (lo - 56320)) +:+ str, rest)
                                | None => None
                                end
                            | _, _ =>
                                match parse_string r'' with
                                | Some (str, rest) => Some (utf8 65533 +:+ str, rest)
                                | None => None
                                end
                            end
                          else
                            match parse_string r'' with
                            | Some (str, rest) =>
                                Some (utf8 (if (56320 <=? cu) && (cu <=? 57343) then 65533 else cu)
                                      +:+ str, rest)
                            | None => None
                            end
                      | None => None
                      end
                  | _ => None
                  end
                else None
            end
        | EmptyString => None
        end
      else if code c <? 32 then None
      else
        match parse_string r with
        | Some (str, rest) => Some (String c str, rest)
        | None => None
        end
  end.

(** A number token: the longest run of bytes a number can contain, which
    must then match the JSON grammar: an optional minus sign; a single
    zero, or a non-zero digit and further digits; optionally a point and
    at least one digit; optionally an exponent with at least one digit. *)
Definition is_number_char (c : ascii) : bool :=
  let n := code c in
  is_digit c || (n =? 45) || (n =? 43) || (n =? 46) || (n =? 101) || (n =? 69).

Definition starts_number (c : ascii) : bool := is_digit c || (code c =? 45).

Definition number_of_token (tok : string) : option JsNumber :=
  let '(neg, s1) :=
    match tok with
    | String c r => if code c =? 45 then (true, r) else (false, tok)
    | EmptyString => (false, tok)
    end in
  let '(ip, r1) := span is_digit s1 in
  let leading_zero :=
    match ip with
    | String c (String _ _) => code c =? 48
    | _ => false
    end in
  if is_empty ip || leading_zero then None
  else
    let '(fp, r2, frac_ok) :=
      match r1 with
      | String c r =>
          if code c =? 46 then let '(fp, r2) := span is_digit r in (fp, r2, negb (is_empty fp))
          else (EmptyString, r1, true)
      | EmptyString => (EmptyString, r1, true)
      end in
    if negb frac_ok then None
    else
      let '(e, r3) := Num.read_exponent r2 in
      if is_empty r3 then
        Some (Num.of_decimal neg (digits_value 10 0 (ip +:+ fp)) (e - Z.of_nat (String.length fp)))
      else None.

Definition parse_number (s : string) : option (JsVal * string) :=
  let '(tok, rest) := span is_number_char s in
  match number_of_token tok with
  | Some n => Some (JNum n, rest)
  | None => None
  end.

Definition parse_keyword (word : string) (v : JsVal) (s : string) : option (JsVal * string) :=
  if starts_with word s then Some (v, drop_string (String.length word) s) else None.

(** [CreateDataProperty] on a property list: an existing key keeps its
    place and takes the new value, a new key goes last. *)
Fixpoint set_prop (k : string) (v : JsVal) (ps : list (string * JsVal)) : list (string * JsVal) :=
  match ps with
  | (k', v') :: ps' => if String.eqb k k' then (k', v) :: ps' else (k', v') :: set_prop k v ps'
  | [] => [(k, v)]
  end.

Definition object_of (members : list (string * JsVal)) : JsVal :=
  JObj (fold_left (fun ps m => set_prop (fst m) (snd m) ps) members []).

Fixpoint parse_value (fuel : nat) (s : string) : option (JsVal * string) :=
  match fuel with
  | O => None
  | S f =>
      match skip_ws s with
      | EmptyString => None
      | String c r =>
          if starts_number c then parse_number (String c r)
          else if code c =? 34 then
            match parse_string r with
            | Some (str, rest) => Some (JStr str, rest)
            | None => None
            end
          else if code c =? 91 then
            match skip_ws r with
            | String c' r' =>
                if code c' =? 93 then Some (JArr [], r')
                else
                  match parse_elements f r with
                  | Some (xs, rest) => Some (JArr xs, rest)
                  | None => None
                  end
            | EmptyString => None
            end
          else if code c =? 123 then
            match skip_ws r with
            | String c' r' =>
                if code c' =? 125 then Some (JObj [], r')
                else
                  match parse_members f r with
                  | Some (ms, rest) => Some (object_of ms, rest)
                  | None => None
                  end
            | EmptyString => None
            end
          else if code c =? 110 then parse_keyword "null" JNull (String c r)
          else if code c =? 116 then parse_keyword "true" (JBool true) (String c r)
          else if code c =? 102 then parse_keyword "false" (JBool false) (String c r)
          else None
      end
  end
with parse_elements (fuel : nat) (s : string) : option (list JsVal * string) :=
  match fuel with
  | O => None
  | S f =>
      match parse_value f s with
      | Some (v, r) =>
          match skip_ws r with
          | String c r' =>
              if code c =? 44 then
                match parse_elements f r' with
                | Some (vs, rest) => Some (v :: vs, rest)
                | None => None
                end
              else if code c =? 93 then Some ([v], r')
              else None
          | EmptyString => None
          end
      | None => None
      end
  end
with parse_members (fuel : nat) (s : string) : option (list (string * JsVal) * string) :=
  match fuel with
  | O => None
  | S f =>
      match skip_ws s with
      | String q r =>
          if code q =? 34 then
            match parse_string r with
            | Some (key, r1) =>
                match skip_ws r1 with
                | String c1 r2 =>
                    if code c1 =? 58 then
                      match parse_value f r2 with
                      | Some (v, r3) =>
                          match skip_ws r3 with
                          | String c3 r4 =>
                              if code c3 =? 44 then
                                match parse_members f r4 with
                                | Some (ms, rest) => Some ((key, v) :: ms, rest)
                                | None => None
                                end
                              else if code c3 =? 125 then Some ([(key, v)], r4)
                              else None
                          | EmptyString => None
                          end
                      | None => None
                      end
                    else None
                | EmptyString => None
                end
            | None => None
            end
          else None
      | EmptyString => None
      end
  end.

Definition parse (text : string) : Completion JsVal :=
  match parse_value (S (String.length text)) text with
  | Some (v, rest) =>
      if is_empty (skip_ws rest) then Return v
      else Throw (SyntaxError "Unexpected token in JSON")
  | None => Throw (SyntaxError "Unexpected token in JSON")
  end.

(** *** Values that survive the text

    [json_safe v]: [v] is built from [null], booleans, strings, finite
    numbers whose decimal text reads back as the same number, arrays, and
    objects with distinct keys. *)

Fixpoint all_chars (p : ascii -> bool) (s : string) : bool :=
  match s with
  | String c r => p c && all_chars p r
  | EmptyString => true
  end.

Definition number_text_ok (n : JsNumber) : bool :=
  let t := Num.toString n in
  match t with String c _ => starts_number c | EmptyString => false end
  && all_chars is_number_char t
  && match number_of_token t with Some n' => Num.same n' n | None => false end.

Fixpoint distinct (ks : list string) : bool :=
  match ks with
  | [] => true
  | k :: ks' => negb (existsb (String.eqb k) ks') && distinct ks'
  end.

Fixpoint json_safe (v : JsVal) : bool :=
  match v with
  | JNull | JBool _ | JStr _ => true
  | JNum n => Num.is_finite n && number_text_ok n
  | JArr xs => forallb json_safe xs
  | JObj ps => distinct (map fst ps) && forallb (fun p => json_safe (snd p)) ps
  | JUndefined | JFun _ | JDate _ | JErr _ _ => false
  end.

(** Fuel that [parse_value] needs to read the text of [v]. *)
Fixpoint size (v : JsVal) : nat :=
  match v with
  | JArr xs => S (list_sum (map (fun x => S (size x)) xs))
  | JObj ps => S (list_sum (map (fun p => S (size (snd p))) ps))
  | _ => 1%nat
  end.

End Json.

(** ** The etcd3 client

    Modelled from the spec: the store client (the etcd3 package, which is
    not part of the repository), after section 6 and the glossary: point
    get, put under a lease, prefix-scoped multi-get, count and delete (a
    prefix scope is all keys whose name begins with the given string), and
    lease creation.  The store is a finite map from keys to values; no
    time passes, so a key lives on with the TTL it was leased for.  Any
    request can be made to throw synchronously ([throws]) or to reject
    ([rejects]); releasing a lease is local to the client and always
    succeeds. *)

Module Client.

Record KeyValue : Type := { value : string; lease_ttl : JsNumber }.

(** A lease handle, as returned by [client.lease(ttl)]. *)
Record Lease : Type := { ttl_of : JsNumber }.

Inductive Call : Type :=
  | CLease (ttl : JsNumber)                               (* client.lease(ttl) *)
  | CPut (l : Lease) (key : string) (text : option string) (* l.put(key).value(text) *)
  | CRelease (l : Lease)                                  (* l.release() *)
  | CGet (key : string)                                   (* client.get(key).json() *)
  | CGetAllJson (prefix : string)                         (* client.getAll().prefix(p).json() *)
  | CGetAllCount (prefix : string)                        (* client.getAll().prefix(p).count() *)
  | CDeletePrefix (prefix : string).                      (* client.delete().prefix(p) *)

Record Etcd3 : Type := {
  kvs : gmap string KeyValue;
  throws : Call -> option JsVal;
  rejects : Call -> option JsVal
}.

(** A client connected to a store holding [m], all of whose requests go
    through. *)
Definition healthy (m : gmap string KeyValue) : Etcd3 :=
  {| kvs := m; throws := fun _ => None; rejects := fun _ => None |}.

Definition with_kvs (c : Etcd3) (m : gmap string KeyValue) : Etcd3 :=
  {| kvs := m; throws := throws c; rejects := rejects c |}.

(** The keys that begin with [p]. *)
Definition in_prefix (p : string) (m : gmap string KeyValue) : gmap string KeyValue :=
  filter (fun kv => String.prefix p kv.1 = true) m.

Definition out_of_prefix (p : string) (m : gmap string KeyValue) : gmap string KeyValue :=
  filter (fun kv => String.prefix p kv.1 = false) m.

(** A range read returns its keys in ascending order. *)
Definition key_le (a b : string * KeyValue) : Prop := String.leb a.1 b.1 = true.

#[export] Instance key_le_dec : RelDecision key_le.
Proof. intros a b. unfold key_le. apply _. Defined.

Definition range (p : string) (m : gmap string KeyValue) : list (string * KeyValue) :=
  merge_sort key_le (map_to_list (in_prefix p m)).

Fixpoint parse_all (kvl : list (string * KeyValue)) : Completion (list (string * JsVal)) :=
  match kvl with
  | [] => Return []
  | (k, kv) :: rest =>
      match Json.parse (value kv) with
      | Return v =>
          match parse_all rest with
          | Return ps => Return ((k, v) :: ps)
          | Throw e => Throw e
          end
      | Throw e => Throw e
      end
  end.

Definition settle {A : Type} (c : Completion A) : Promise A :=
  match c with Return a => Fulfilled a | Throw e => Rejected e end.

(** What the store answers to a request that reaches it.  The response
    objects of a put and of a delete, which the adapter ignores, are
    rendered as [undefined]; a value that is not a text cannot be put. *)
Definition respond (c : Call) (m : gmap string KeyValue)
  : Completion (Promise JsVal) * gmap string KeyValue :=
  match c with
  | CLease _ | CRelease _ => (Return (Fulfilled JUndefined), m)
  | CPut l key (Some text) =>
      (Return (Fulfilled JUndefined), <[key := {| value := text; lease_ttl := ttl_of l |}]> m)
  | CPut _ _ None =>
      (Throw (TypeError "The first argument must be of type string or Buffer"), m)
  | CGet key =>
      (Return
         match m !! key with
         | Some kv => settle (Json.parse (value kv))
         | None => Fulfilled JNull
         end, m)
  | CGetAllJson p =>
      (Return
         match parse_all (range p m) with
         | Return ps => Fulfilled (JObj ps)
         | Throw e => Rejected e
         end, m)
  | CGetAllCount p => (Return (Fulfilled (JNum (Num.of_Z (Z.of_nat (List.length (range p m)))))), m)
  | CDeletePrefix p => (Return (Fulfilled JUndefined), out_of_prefix p m)
  end.

End Client.
Export Client.

(** ** Runs: what an operation does to the store and lets the caller see *)

(** The caller's callback is taken not to throw. *)
Inductive Event : Type :=
  | Called (c : Call)                   (* the adapter calls the client *)
  | Threw (e : JsVal)                   (* the call throws *)
  | Settled (p : Promise JsVal)         (* the promise of the call settles *)
  | Callback (err value : JsVal)        (* the adapter calls the caller's callback *)
  | UnhandledRejection (reason : JsVal). (* a promise rejects with no handler *)

Record Run : Type := { client : Etcd3; trace : list Event }.

Definition start (c : Etcd3) : Run := {| client := c; trace := [] |}.

Definition log (e : Event) (r : Run) : Run :=
  {| client := client r; trace := trace r ++ [e] |}.

(** Computations that read and write the run and may throw. *)
Definition M (A : Type) : Type := Run -> Completion A * Run.

Definition ret {A : Type} (a : A) : M A := fun r => (Return a, r).

Definition throw {A : Type} (e : JsVal) : M A := fun r => (Throw e, r).

Definition lift {A : Type} (c : Completion A) : M A := fun r => (c, r).

Definition bind {A B : Type} (m : M A) (k : A -> M B) : M B :=
  fun r =>
    match m r with
    | (Return a, r') => k a r'
    | (Throw e, r') => (Throw e, r')
    end.

#[export] Instance M_ret : MRet M := @ret.
#[export] Instance M_bind : MBind M := fun A B k m => bind m k.

(** [try { body } catch (err) { handler }]. *)
Definition try_catch {A : Type} (body : M A) (handler : JsVal -> M A) : M A :=
  fun r =>
    match body r with
    | (Throw e, r') => handler e r'
    | res => res
    end.

Definition emit (e : Event) : M unit := fun r => (Return tt, log e r).

(** [p.then(onFulfilled, onRejected)]: the handler for the way [p] settled
    runs; what it returns fulfils the new promise, what it throws rejects
    it and is not seen by any enclosing [try]. *)
Definition then_ {A B : Type} (p : Promise A) (onFulfilled : A -> M B) (onRejected : JsVal -> M B)
  : M (Promise B) :=
  fun r =>
    match (match p with Fulfilled a => onFulfilled a | Rejected e => onRejected e end) r with
    | (Return b, r') => (Return (Fulfilled b), r')
    | (Throw e, r') => (Return (Rejected e), r')
    end.

(** [p.then(onFulfilled)]: a rejection passes through. *)
Definition then1 {A B : Type} (p : Promise A) (onFulfilled : A -> M B) : M (Promise B) :=
  then_ p onFulfilled throw.

(** A promise nobody keeps: if it rejected, the rejection is unhandled. *)
Definition drop {A : Type} (p : Promise A) : M unit :=
  match p with
  | Fulfilled _ => ret tt
  | Rejected e => emit (UnhandledRejection e)
  end.

(** A call of a client method that returns a promise. *)
Definition request (c : Call) : M (Promise JsVal) :=
  fun r =>
    let r1 := log (Called c) r in
    match throws (client r) c with
    | Some e => (Throw e, log (Threw e) r1)
    | None =>
        match rejects (client r) c with
        | Some e => (Return (Rejected e), log (Settled (Rejected e)) r1)
        | None =>
            match respond c (kvs (client r)) with
            | (Return p, m) =>
                (Return p, {| client := with_kvs (client r) m; trace := trace r1 ++ [Settled p] |})
            | (Throw e, _) => (Throw e, log (Threw e) r1)
            end
        end
    end.

(** [client.lease(ttl)]: synchronous. *)
Definition lease (ttl : JsNumber) : M Lease :=
  fun r =>
    let r1 := log (Called (CLease ttl)) r in
    match throws (client r) (CLease ttl) with
    | Some e => (Throw e, log (Threw e) r1)
    | None => (Return {| ttl_of := ttl |}, r1)
    end.

(** [leasing.release()]: synchronous, never fails. *)
Definition release (l : Lease) : M unit := emit (Called (CRelease l)).

(** ** The adapter *)

Module Etcd3Store.

(** One day in seconds. *)
Definition oneDay : JsNumber := Num.of_Z 86400.

(** Max TTL time to leasing on ETCD3 Client in seconds. *)
Definition maxTTL : JsNumber := Num.of_Z 6442450.

(** The options the adapter reads; the connection options go to the
    client. *)
Record Etcd3StoreOptions : Type := {
  prefix : option string;
  skipTouch : option bool
}.

Definition defaultOptions : Etcd3StoreOptions :=
  {| prefix := Some "sess"%string; skipTouch := Some false |}.

(** The adapter object: its configuration and its [ttl] property, which
    the class does not declare and callers may set. *)
Record Etcd3Store : Type := {
  config : Etcd3StoreOptions;
  ttl : JsVal
}.

(** [new Etcd3Store(config, client)]: an absent [config] is
    [defaultOptions]. *)
Definition new (cfg : option Etcd3StoreOptions) : Etcd3Store :=
  {| config := default defaultOptions cfg; ttl := JUndefined |}.

(** [a || b] on optional strings, and string concatenation of the result. *)
Definition or_else (a b : option string) : option string :=
  match a with
  | Some s => if is_empty s then b else a
  | None => b
  end.

Definition to_string (a : option string) : string :=
  match a with Some s => s | None => "undefined" end.

(** Build the etcd key with the right prefix and the given session ID;
    [this.key()] is [key this EmptyString]. *)
Definition key (this : Etcd3Store) (sid : string) : string :=
  to_string (or_else (prefix (config this)) (prefix defaultOptions)) +:+ "/" +:+ sid.

Section Methods.

(** What calling the function value [JFun f] with
    [(this, sess, sid)] does. *)
Variable call : nat -> Etcd3Store -> JsVal -> string -> Completion JsNumber.

(** Get the raw Time to Live of the session from the data sources.  The
    three [typeof] tests are the first three branches. *)
Definition getRawTTL (this : Etcd3Store) (sess : JsVal) (sid : string) : Completion JsNumber :=
  let storeTtl := ttl this in
  match storeTtl with
  | JNum n => Return n                          (* typeof storeTtl === 'number' *)
  | JStr s => Return (Num.StringToNumber s)     (* typeof storeTtl === 'string' *)
  | JFun f => call f this sess sid              (* typeof storeTtl === 'function' *)
  | _ =>
      if truthy storeTtl then Throw (TypeError "`store.ttl` must be a number or function.")
      else
        match get_prop sess "cookie" with
        | Return cookie =>
            match get_prop cookie "maxAge" with
            | Return (JNum maxAge) => Return (Num.floor (Num.div maxAge (Num.of_Z 1000)))
            | Return _ => Return oneDay
            | Throw e => Throw e
            end
        | Throw e => Throw e
        end
  end.

(** Get the Time to Live of the session. *)
Definition getTTL (this : Etcd3Store) (sess : JsVal) (sid : string) : Completion JsNumber :=
  match getRawTTL this sess sid with
  | Return rawTTL => Return (if Num.gt rawTTL maxTTL then maxTTL else rawTTL)
  | Throw e => Throw e
  end.

(** The caller's callback is not a parameter of the methods below:
    calling it is an event of the run.  [callback err value] is
    [callback(err, value)], with [undefined] for an argument that is not
    passed; [callbackWithLog err value] is
    [callbackWithLog(callback, err, value)], whose parameters [err] and
    [value] default to [null]. *)
Definition callback (err value : JsVal) : M unit := emit (Callback err value).

Definition callbackWithLog (err value : JsVal) : M unit :=
  callback (default_null err) (default_null value).

Definition get (this : Etcd3Store) (sid : string) : M unit :=
  try_catch
    (p ← request (CGet (key this sid));
     q ← then_ p (fun val => callbackWithLog JNull val)
                 (fun err => callbackWithLog err JUndefined);
     drop q)
    (fun err => callbackWithLog err JUndefined).

Definition set (this : Etcd3Store) (sid : string) (session : JsVal) : M unit :=
  ttl ← lift (getTTL this session sid);
  try_catch
    (leasing ← lease ttl;
     p ← request (CPut leasing (key this sid) (Json.stringify session));
     q ← then_ p (fun _ => release leasing;; callbackWithLog JUndefined JUndefined)
                 (fun err => callbackWithLog err JUndefined);
     drop q)
    (fun err => callback err JUndefined).

Definition touch (this : Etcd3Store) (sid : string) (session : JsVal) : M unit :=
  if truthy (from_option JBool JUndefined (skipTouch (config this))) then
    callback JNull JUndefined
  else set this sid session.

Definition all (this : Etcd3Store) : M unit :=
  try_catch
    (p ← request (CGetAllJson (key this EmptyString));
     p' ← then1 p (fun json => lift (Object_values json));
     q ← then_ p' (fun val => callbackWithLog JNull val)
                  (fun err => callbackWithLog err JUndefined);
     drop q)
    (fun err => callbackWithLog err JUndefined).

Definition length (this : Etcd3Store) : M unit :=
  try_catch
    (p ← request (CGetAllCount (key this EmptyString));
     q ← then_ p (fun val => callbackWithLog JNull val)
                 (fun err => callbackWithLog err JUndefined);
     drop q)
    (fun err => callbackWithLog err JUndefined).

Definition destroy (this : Etcd3Store) (sid : string) : M unit :=
  try_catch
    (p ← request (CDeletePrefix (key this sid));
     q ← then_ p (fun _ => callbackWithLog JUndefined JUndefined)
                 (fun err => callbackWithLog err JUndefined);
     drop q)
    (fun err => callback err JUndefined).

Definition clear (this : Etcd3Store) : M unit :=
  try_catch
    (p ← request (CDeletePrefix (key this EmptyString));
     q ← then_ p (fun _ => callbackWithLog JUndefined JUndefined)
                 (fun err => callbackWithLog err JUndefined);
     drop q)
    (fun err => callbackWithLog err JUndefined).

(** The seven operations of the store contract. *)
Inductive Operation : Type :=
  | OpGet (sid : string)
  | OpSet (sid : string) (session : JsVal)
  | OpTouch (sid : string) (session : JsVal)
  | OpAll
  | OpLength
  | OpDestroy (sid : string)
  | OpClear.

Definition perform (this : Etcd3Store) (op : Operation) : M unit :=
  match op with
  | OpGet sid => get this sid
  | OpSet sid session => set this sid session
  | OpTouch sid session => touch this sid session
  | OpAll => all this
  | OpLength => length this
  | OpDestroy sid => destroy this sid
  | OpClear => clear this
  end.

End Methods.

(** The session id an operation is about; none for the whole-namespace
    operations. *)
Definition sid_of (op : Operation) : string :=
  match op with
  | OpGet sid | OpSet sid _ | OpTouch sid _ | OpDestroy sid => sid
  | OpAll | OpLength | OpClear => EmptyString
  end.

(** The key or key prefix a client call names. *)
Definition target (c : Call) : option string :=
  match c with
  | CLease _ | CRelease _ => None
  | CPut _ k _ | CGet k => Some k
  | CGetAllJson p | CGetAllCount p | CDeletePrefix p => Some p
  end.

Definition is_callback (e : Event) : bool :=
  match e with Callback _ _ => true | _ => false end.

Definition is_unhandled (e : Event) : bool :=
  match e with UnhandledRejection _ => true | _ => false end.

Definition is_release (e : Event) : bool :=
  match e with Called (CRelease _) => true | _ => false end.

(** A session record of the framework: an object with a [cookie] object. *)
Definition is_session (sess : JsVal) : bool :=
  match sess with
  | JObj ps => match lookup_prop "cookie" ps with Some (JObj _) => true | _ => false end
  | _ => false
  end.

End Etcd3Store.

(** ** TTL resolution, in the words of the specification

    The reference definition that [Etcd3Store.getTTL] is compared with:
    the seven steps of the TTL resolution algorithm, dispatching on
    [typeof]. *)

Module Spec.

Import Etcd3Store.

Definition number_of (v : JsVal) : JsNumber :=
  match v with JNum n => n | _ => Num.NaN end.

Definition text_of (v : JsVal) : string :=
  match v with JStr s => s | _ => EmptyString end.

Definition function_of (v : JsVal) : nat :=
  match v with JFun f => f | _ => O end.

(** The numeric [maxAge] of the record's cookie, if it has one. *)
Definition cookie_maxAge (sess : JsVal) : option JsNumber :=
  match sess with
  | JObj ps =>
      match lookup_prop "cookie" ps with
      | Some (JObj cps) =>
          match lookup_prop "maxAge" cps with
          | Some (JNum ms) => Some ms
          | _ => None
          end
      | _ => None
      end
  | _ => None
  end.

Definition max_lease : JsNumber := Num.of_Z 6442450.

Section Resolution.

Variable call : nat -> Etcd3Store -> JsVal -> string -> Completion JsNumber.

(** Steps 1 to 6. *)
Definition resolve (this : Etcd3Store) (sess : JsVal) (sid : string) : Completion JsNumber :=
  let override := ttl this in
  if String.eqb (typeof override) "number" then Return (number_of override)
  else if String.eqb (typeof override) "string" then
    Return (Num.StringToNumber (text_of override))
  else if String.eqb (typeof override) "function" then
    call (function_of override) this sess sid
  else if truthy override then Throw (TypeError "`store.ttl` must be a number or function.")
  else
    match cookie_maxAge sess with
    | Some ms => Return (Num.floor (Num.div ms (Num.of_Z 1000)))
    | None => Return (Num.of_Z 86400)
    end.

(** Step 7: the resolved value is capped, never refused. *)
Definition resolve_ttl (this : Etcd3Store) (sess : JsVal) (sid : string) : Completion JsNumber :=
  match resolve this sess sid with
  | Return seconds => Return (Num.min seconds max_lease)
  | Throw e => Throw e
  end.

End Resolution.

End Spec.

(** ** Auxiliary notions used by the statements below *)

(** Text is delimited when what follows cannot continue a number. *)
Definition delimited (k : string) : bool :=
  match k with
  | String c _ => negb (Json.is_number_char c)
  | EmptyString => true
  end.

(** Fuel for the elements of an array and the members of an object. *)
Definition need (xs : list JsVal) : nat := list_sum (map (fun x => S (Json.size x)) xs).

Definition need_members (ps : list (string * JsVal)) : nat :=
  list_sum (map (fun p => S (Json.size p.2)) ps).

(** [v] is read back from its own text, whatever delimited text follows. *)
Definition reads_back (v : JsVal) : Prop :=
  Json.json_safe v = true ->
  forall fuel k, delimited k = true -> (Json.size v <= fuel)%nat ->
  Json.parse_value fuel (Json.ser v k) = Some (v, k).

(** The text of [v] is at least as long as the fuel its reading needs. *)
Definition long_enough (v : JsVal) : Prop :=
  Json.json_safe v = true ->
  forall k, (Json.size v + String.length k <= String.length (Json.ser v k))%nat.

(** A stored text that [JSON.parse] accepts. *)
Definition decodes (text : string) : bool :=
  match Json.parse text with Return _ => true | Throw _ => false end.

(** A [ttl] override of an unsupported type: truthy, and neither a
    number, a string nor a function. *)
Definition malformed (v : JsVal) : bool :=
  truthy v
  && negb (String.eqb (typeof v) "number" || String.eqb (typeof v) "string"
           || String.eqb (typeof v) "function").

(** The run of an operation that makes one request [rq] and hands its
    outcome to the callback: [ok] is what the callback receives of the
    fulfilment value, [caught] how a synchronous throw is reported. *)
Definition single (rq : Call) (ok : JsVal -> JsVal) (caught : JsVal -> Event) (c : Etcd3)
  : Completion unit * Run :=
  match throws c rq with
  | Some e => (Return tt, {| client := c; trace := [Called rq; Threw e; caught e] |})
  | None =>
      match rejects c rq with
      | Some e =>
          (Return tt,
           {| client := c;
              trace := [Called rq; Settled (Rejected e); Callback (default_null e) JNull] |})
      | None =>
          match respond rq (kvs c) with
          | (Return (Fulfilled v), m) =>
              (Return tt,
               {| client := with_kvs c m;
                  trace := [Called rq; Settled (Fulfilled v); Callback JNull (ok v)] |})
          | (Return (Rejected e), m) =>
              (Return tt,
               {| client := with_kvs c m;
                  trace := [Called rq; Settled (Rejected e); Callback (default_null e) JNull] |})
          | (Throw e, _) => (Return tt, {| client := c; trace := [Called rq; Threw e; caught e] |})
          end
      end
  end.

Definition caught_logged (e : JsVal) : Event := Callback (default_null e) JNull.
Definition caught_plain (e : JsVal) : Event := Callback e JUndefined.

(** The prefix in effect: the configured one, or the default. *)
Definition effective_prefix (this : Etcd3Store.Etcd3Store) : string :=
  Etcd3Store.to_string
    (Etcd3Store.or_else (Etcd3Store.prefix (Etcd3Store.config this))
       (Etcd3Store.prefix Etcd3Store.defaultOptions)).

Fixpoint slash_free (s : string) : bool :=
  match s with
  | String c r => negb (code c =? 47) && slash_free r
  | EmptyString => true
  end.

(** ** Fixtures, after the repository's test suite *)

Module Fixtures.

Import Etcd3Store.

Definition sessionData : JsVal :=
  JObj [("sid", JStr "test-sid");
        ("cookie",
         JObj [("originalMaxAge", JNum (Num.of_Z 10)); ("path", JStr "path/path");
               ("maxAge", JNum (Num.of_Z 10)); ("expires", JBool true);
               ("httpOnly", JBool true)])].

(** A record as the framework fills it in: [expires] is a [Date]. *)
Definition datedSession : JsVal :=
  JObj [("cookie",
         JObj [("originalMaxAge", JNum (Num.of_Z 60000)); ("path", JStr "/");
               ("maxAge", JNum (Num.of_Z 60000));
               ("expires", JDate "2026-11-02T19:10:00.000Z");
               ("httpOnly", JBool true)])].

Definition with_maxAge (maxAge : JsVal) : JsVal :=
  JObj [("cookie", JObj [("maxAge", maxAge)])].

(** A [ttl] function that answers 666 seconds. *)
Definition ttlFunc : nat -> Etcd3Store -> JsVal -> string -> Completion JsNumber :=
  fun _ _ _ _ => Return (Num.of_Z 666).

Definition with_ttl (v : JsVal) : Etcd3Store := {| config := defaultOptions; ttl := v |}.

Definition with_prefix (p : string) : Etcd3Store :=
  {| config := {| prefix := Some p; skipTouch := None |}; ttl := JUndefined |}.

Definition skipping : Etcd3Store :=
  {| config := {| prefix := None; skipTouch := Some true |}; ttl := JUndefined |}.

Definition stored (v : JsVal) (seconds : Z) : KeyValue :=
  {| value := default EmptyString (Json.stringify v); lease_ttl := Num.of_Z seconds |}.

(** A client all of whose requests reject with [e]. *)
Definition rejecting (e : JsVal) (m : gmap string KeyValue) : Etcd3 :=
  {| kvs := m; throws := fun _ => None; rejects := fun _ => Some e |}.

Definition two_sessions : gmap string KeyValue :=
  <["sess/abc" := stored sessionData 100]> (<["sess/abcd" := stored sessionData 100]> ∅).

Definition nested_sessions : gmap string KeyValue :=
  <["a/b/x" := stored sessionData 100]> ∅.


End Fixtures.

(** ** Notions used by the further properties *)

(** The client calls of a run, in order. *)
Definition calls (t : list Event) : list Call :=
  omap (fun e => match e with Called c => Some c | _ => None end) t.

(** The operations whose [catch] hands the error to the caller's callback
    directly ([callback(err)]): [set], hence [touch], and [destroy].  The
    others go through [callbackWithLog]. *)
Definition catches_plainly (op : Etcd3Store.Operation) : bool :=
  match op with
  | Etcd3Store.OpSet _ _ | Etcd3Store.OpTouch _ _ | Etcd3Store.OpDestroy _ => true
  | _ => false
  end.

(** What the callback receives when the client throws [e]. *)
Definition caught (op : Etcd3Store.Operation) (e : JsVal) : Event :=
  if catches_plainly op then caught_plain e else caught_logged e.

(** A client whose every call throws [e]. *)
Definition blowing_up (e : JsVal) (m : gmap string KeyValue) : Etcd3 :=
  {| kvs := m; throws := fun _ => Some e; rejects := fun _ => None |}.

(** No [ttl] override: a falsy value that is not a number or a string
    (a function is truthy). *)
Definition unset (v : JsVal) : bool :=
  negb (truthy v)
  && negb (String.eqb (typeof v) "number" || String.eqb (typeof v) "string").

(** A record whose [cookie] cannot be read for its [maxAge]: the record
    itself, or its [cookie] property, is [undefined] or [null]. *)
Definition lacks_cookie (sess : JsVal) : bool :=
  match get_prop sess "cookie" with
  | Return JUndefined | Return JNull | Throw _ => true
  | Return _ => false
  end.

(** ** The adapter as first released

    The class of [src/unnamed/part_002]: no logging, no cap on the lease,
    no [skipTouch]; the TTL is resolved inside the [try] of [set], and the
    callbacks are called directly.  It reads the same adapter object. *)

Module Legacy.

Import Etcd3Store.

Definition oneDay : JsNumber := Num.of_Z 86400.

Definition defaultOptions : Etcd3StoreOptions :=
  {| prefix := Some "sess"%string; skipTouch := None |}.

Definition key (this : Etcd3Store) (sid : string) : string :=
  to_string (or_else (prefix (config this)) (prefix defaultOptions)) +:+ "/" +:+ sid.

Section Methods.

Variable call : nat -> Etcd3Store -> JsVal -> string -> Completion JsNumber.

Definition getTTL (this : Etcd3Store) (sess : JsVal) (sid : string) : Completion JsNumber :=
  let storeTtl := ttl this in
  match storeTtl with
  | JNum n => Return n
  | JStr s => Return (Num.StringToNumber s)
  | JFun f => call f this sess sid
  | _ =>
      if truthy storeTtl then Throw (TypeError "`store.ttl` must be a number or function.")
      else
        match get_prop sess "cookie" with
        | Return cookie =>
            match get_prop cookie "maxAge" with
            | Return (JNum maxAge) => Return (Num.floor (Num.div maxAge (Num.of_Z 1000)))
            | Return _ => Return oneDay
            | Throw e => Throw e
            end
        | Throw e => Throw e
        end
  end.

Definition get (this : Etcd3Store) (sid : string) : M unit :=
  try_catch
    (p ← request (CGet (key this sid));
     q ← then_ p (fun val => callback JNull val) (fun err => callback err JNull);
     drop q)
    (fun err => callback err JNull).

Definition set (this : Etcd3Store) (sid : string) (session : JsVal) : M unit :=
  try_catch
    (ttl ← lift (getTTL this session sid);
     leasing ← lease ttl;
     p ← request (CPut leasing (key this sid) (Json.stringify session));
     q ← then_ p (fun _ => callback JNull JUndefined) (fun err => callback err JUndefined);
     drop q)
    (fun err => callback err JUndefined).

Definition touch (this : Etcd3Store) (sid : string) (session : JsVal) : M unit :=
  set this sid session.

Definition all (this : Etcd3Store) : M unit :=
  try_catch
    (p ← request (CGetAllJson (key this EmptyString));
     p' ← then1 p (fun json => lift (Object_values json));
     q ← then_ p' (fun val => callback JNull val) (fun err => callback err JNull);
     drop q)
    (fun err => callback err JNull).

Definition length (this : Etcd3Store) : M unit :=
  try_catch
    (p ← request (CGetAllCount (key this EmptyString));
     q ← then_ p (fun val => callback JNull val) (fun err => callback err JNull);
     drop q)
    (fun err => callback err JNull).

Definition destroy (this : Etcd3Store) (sid : string) : M unit :=
  try_catch
    (p ← request (CDeletePrefix (key this sid));
     q ← then_ p (fun _ => callback JNull JUndefined) (fun err => callback err JUndefined);
     drop q)
    (fun err => callback err JUndefined).

Definition clear (this : Etcd3Store) : M unit :=
  try_catch
    (p ← request (CDeletePrefix (key this EmptyString));
     q ← then_ p (fun _ => callback JNull JUndefined) (fun err => callback err JUndefined);
     drop q)
    (fun err => callback err JUndefined).

Definition perform (this : Etcd3Store) (op : Operation) : M unit :=
  match op with
  | OpGet sid => get this sid
  | OpSet sid session => set this sid session
  | OpTouch sid session => touch this sid session
  | OpAll => all this
  | OpLength => length this
  | OpDestroy sid => destroy this sid
  | OpClear => clear this
  end.

End Methods.

End Legacy.

(** The calls of a run but for the releases of leases, and the error
    arguments its callbacks received. *)
Definition requests (t : list Event) : list Call :=
  List.filter (fun c => match c with CRelease _ => false | _ => true end) (calls t).

Definition errors (t : list Event) : list JsVal :=
  omap (fun e => match e with Callback err _ => Some err | _ => None end) t.

(** ** What a record becomes in the store

    The value that reading back the text of [v] yields: a [Date] is its
    ISO text, a number that is not finite is [null], negative zero is
    zero, an [Error] is an empty object; in an array [undefined] and
    functions are [null], in an object the members holding them are
    left out. *)

Definition image_members (image : JsVal -> JsVal)
  : list (string * JsVal) -> list (string * JsVal) :=
  fix members (ps : list (string * JsVal)) : list (string * JsVal) :=
    match ps with
    | [] => []
    | (key, v) :: ps' =>
        if Json.serializable v then (key, image v) :: members ps' else members ps'
    end.

Fixpoint image (v : JsVal) : JsVal :=
  match v with
  | JUndefined | JFun _ | JNull => JNull
  | JBool b => JBool b
  | JNum n =>
      if Num.is_finite n then (if Num.is_zero n then JNum (Num.of_Z 0) else JNum n) else JNull
  | JStr s => JStr s
  | JDate iso => JStr iso
  | JErr _ _ => JObj []
  | JArr xs => JArr (map image xs)
  | JObj ps => JObj (image_members image ps)
  end.

(** Plain JSON data: [null], booleans, numbers, strings, and arrays and
    objects of such. *)
Fixpoint plain (v : JsVal) : bool :=
  match v with
  | JNull | JBool _ | JNum _ | JStr _ => true
  | JArr xs => forallb plain xs
  | JObj ps => forallb (fun p => plain (snd p)) ps
  | JUndefined | JFun _ | JDate _ | JErr _ _ => false
  end.

(** * Properties *)

(** ** Strings, keys and prefixes *)

Lemma append_cons a s k : String a s +:+ k = String a (s +:+ k).
Proof. reflexivity. Qed.

Lemma append_nil k : EmptyString +:+ k = k.
Proof. reflexivity. Qed.

Lemma append_assoc s t u : (s +:+ t) +:+ u = s +:+ (t +:+ u).
Proof. induction s as [| a s IH]; [reflexivity |]. rewrite !append_cons, IH. reflexivity. Qed.

Lemma length_append s k : String.length (s +:+ k) = (String.length s + String.length k)%nat.
Proof.
  induction s as [| a s IH]; [reflexivity |].
  rewrite append_cons. cbn [String.length]. rewrite IH. reflexivity.
Qed.

Lemma prefix_refl s : String.prefix s s = true.
Proof.
  induction s as [| a s IH]; cbn; [reflexivity |].
  destruct (ascii_dec a a); [exact IH | contradiction].
Qed.

Lemma prefix_empty s : String.prefix EmptyString s = true.
Proof. destruct s; reflexivity. Qed.

Lemma prefix_append p s : String.prefix p (p +:+ s) = true.
Proof.
  induction p as [| a p IH]; [apply prefix_empty |].
  rewrite append_cons. cbn [String.prefix].
  destruct (ascii_dec a a); [exact IH | contradiction].
Qed.

(** Two prefixes of one string: one of them is a prefix of the other. *)
Lemma prefix_comparable p q k :
  String.prefix p k = true -> String.prefix q k = true ->
  String.prefix p q = true \/ String.prefix q p = true.
Proof.
  revert p q. induction k as [| c k IH]; intros p q Hp Hq.
  - destruct p; [| discriminate]. left. apply prefix_empty.
  - destruct p as [| a p]; [left; apply prefix_empty |].
    destruct q as [| b q]; [right; reflexivity |].
    cbn in Hp, Hq |- *.
    destruct (ascii_dec a c) as [-> |]; [| discriminate].
    destruct (ascii_dec b c) as [-> |]; [| discriminate].
    destruct (ascii_dec c c); [| contradiction]. apply IH; assumption.
Qed.

(** Keys of two namespaces neither of which extends the other never fall
    in the same prefix-scoped range. *)
Lemma disjoint_namespaces p q k :
  String.prefix p q = false -> String.prefix q p = false ->
  String.prefix q k = true -> String.prefix p k = false.
Proof.
  intros Hpq Hqp Hq. destruct (String.prefix p k) eqn:Hp; [| reflexivity].
  destruct (prefix_comparable p q k Hp Hq); congruence.
Qed.

(** Among slash-free names, [p/] begins [q/] only if [p] is [q]. *)
Lemma slash_free_path_prefix p q :
  slash_free p = true -> slash_free q = true ->
  String.prefix (p +:+ "/") (q +:+ "/") = true -> p = q.
Proof.
  revert q. induction p as [| a p IH]; intros [| b q] Hp Hq H.
  - reflexivity.
  - exfalso. rewrite append_nil, append_cons in H. cbn [String.prefix] in H.
    destruct (ascii_dec "/" b) as [<- |]; [| discriminate].
    cbn [slash_free] in Hq. apply andb_prop in Hq as [Hq _]. vm_compute in Hq. discriminate.
  - exfalso. rewrite append_nil, append_cons in H. cbn [String.prefix] in H.
    destruct (ascii_dec a "/") as [-> |]; [| discriminate].
    cbn [slash_free] in Hp. apply andb_prop in Hp as [Hp _]. vm_compute in Hp. discriminate.
  - rewrite !append_cons in H. cbn [String.prefix] in H.
    destruct (ascii_dec a b) as [-> |]; [| discriminate].
    cbn [slash_free] in Hp, Hq.
    apply andb_prop in Hp as [_ Hp]. apply andb_prop in Hq as [_ Hq].
    rewrite (IH q Hp Hq H). reflexivity.
Qed.

Section Keys.

Import Etcd3Store.

(** A key is the namespace path [this.key()] followed by the session id. *)
Lemma key_split this sid : key this sid = key this EmptyString +:+ sid.
Proof. unfold key. rewrite !append_assoc. reflexivity. Qed.

Lemma prefix_key this sid : String.prefix (key this EmptyString) (key this sid) = true.
Proof. rewrite (key_split this sid). apply prefix_append. Qed.

Lemma key_falsy_prefix this sid :
  prefix (config this) = None \/ prefix (config this) = Some EmptyString ->
  key this sid = "sess/" +:+ sid.
Proof. unfold key. intros [-> | ->]; reflexivity. Qed.

Lemma key_effective this sid : key this sid = effective_prefix this +:+ "/" +:+ sid.
Proof. reflexivity. Qed.

(** Distinct prefixes without a slash give namespaces that do not
    overlap. *)
Lemma slash_free_prefixes_are_disjoint thisP thisQ :
  slash_free (effective_prefix thisP) = true -> slash_free (effective_prefix thisQ) = true ->
  effective_prefix thisP <> effective_prefix thisQ ->
  String.prefix (key thisP EmptyString) (key thisQ EmptyString) = false.
Proof.
  intros Hp Hq Hne. rewrite !key_effective.
  destruct (String.prefix _ _) eqn:H; [| reflexivity].
  exfalso. apply Hne. apply (slash_free_path_prefix _ _ Hp Hq). exact H.
Qed.

End Keys.

(** ** The store *)

Lemma lookup_out_of_prefix p (m : gmap string KeyValue) k :
  out_of_prefix p m !! k = if String.prefix p k then None else m !! k.
Proof.
  unfold out_of_prefix.
  destruct (String.prefix p k) eqn:Hp.
  - apply map_lookup_filter_None. right. intros kv _. cbn. rewrite Hp. discriminate.
  - destruct (m !! k) as [kv |] eqn:Hk.
    + apply map_lookup_filter_Some. split; [exact Hk | exact Hp].
    + apply map_lookup_filter_None. left. exact Hk.
Qed.

Lemma lookup_in_prefix p (m : gmap string KeyValue) k :
  in_prefix p m !! k = if String.prefix p k then m !! k else None.
Proof.
  unfold in_prefix.
  destruct (String.prefix p k) eqn:Hp.
  - destruct (m !! k) as [kv |] eqn:Hk.
    + apply map_lookup_filter_Some. split; [exact Hk | exact Hp].
    + apply map_lookup_filter_None. left. exact Hk.
  - apply map_lookup_filter_None. right. intros kv _. cbn. rewrite Hp. discriminate.
Qed.

Lemma elem_of_range p (m : gmap string KeyValue) k kv :
  (k, kv) ∈ range p m <-> m !! k = Some kv /\ String.prefix p k = true.
Proof.
  unfold range. rewrite merge_sort_Permutation, elem_of_map_to_list, lookup_in_prefix.
  destruct (String.prefix p k); intuition congruence.
Qed.

Lemma with_kvs_same c : with_kvs c (kvs c) = c.
Proof. destruct c; reflexivity. Qed.

Lemma parse_error text e :
  Json.parse text = Throw e -> e = SyntaxError "Unexpected token in JSON".
Proof. unfold Json.parse. repeat case_match; congruence. Qed.

Lemma parse_all_undecodable l k kv :
  (k, kv) ∈ l -> decodes (value kv) = false ->
  exists e, parse_all l = Throw e /\ truthy e = true.
Proof.
  unfold decodes. intros Hin Hbad.
  induction l as [| [k' kv'] l IH]; [inversion Hin |].
  cbn [parse_all]. destruct (Json.parse (value kv')) as [v | e] eqn:Hp.
  - apply elem_of_cons in Hin as [Heq | Hin].
    + inversion Heq; subst. rewrite Hp in Hbad. discriminate.
    + destruct (IH Hin) as (e & -> & He). eauto.
  - apply parse_error in Hp as ->. eauto.
Qed.

(** ** Reading back what [JSON.stringify] wrote *)

Lemma JsVal_nested_ind (P : JsVal -> Prop) :
  P JUndefined -> P JNull -> (forall b, P (JBool b)) -> (forall n, P (JNum n)) ->
  (forall s, P (JStr s)) -> (forall f, P (JFun f)) -> (forall iso, P (JDate iso)) ->
  (forall name message, P (JErr name message)) ->
  (forall xs, Forall P xs -> P (JArr xs)) ->
  (forall ps, Forall (fun p => P p.2) ps -> P (JObj ps)) ->
  forall v, P v.
Proof.
  intros Hu Hn Hb Hnum Hs Hf Hd He Ha Ho.
  fix IH 1. intros [ | | b | n | s | f | iso | name message | xs | ps].
  - exact Hu.
  - exact Hn.
  - apply Hb.
  - apply Hnum.
  - apply Hs.
  - apply Hf.
  - apply Hd.
  - apply He.
  - apply Ha. induction xs as [| x xs IHxs]; constructor; [apply IH | exact IHxs].
  - apply Ho. induction ps as [| [k v] ps IHps]; constructor; [apply IH | exact IHps].
Qed.

Lemma same_eq x y : Num.same x y = true -> x = y.
Proof.
  destruct x as [[] | [] | | [] m e], y as [[] | [] | | [] m' e']; cbn;
    try discriminate; try reflexivity.
  all: intros H; apply andb_prop in H as [Hm He].
  all: apply Pos.eqb_eq in Hm as ->; apply Z.eqb_eq in He as ->; reflexivity.
Qed.

Lemma same_refl x : Num.same x x = true.
Proof.
  destruct x as [[] | [] | | [] m e]; cbn; try reflexivity.
  all: rewrite Pos.eqb_refl, Z.eqb_refl; reflexivity.
Qed.

Lemma span_append p t k :
  Json.all_chars p t = true ->
  match k with String c _ => p c = false | EmptyString => True end ->
  span p (t +:+ k) = (t, k).
Proof.
  intros Ht Hk. induction t as [| a t IH].
  - rewrite append_nil. destruct k as [| c k]; [reflexivity |].
    cbn [span]. rewrite Hk. reflexivity.
  - cbn [Json.all_chars] in Ht. apply andb_prop in Ht as [Ha Ht].
    rewrite append_cons. cbn [span]. rewrite Ha, (IH Ht). reflexivity.
Qed.

Section ReadBack.

Import Json.

(** Evaluates the tests on a known byte. *)
Ltac eval_char :=
  repeat match goal with
         | |- context [is_ws ?c] =>
             let b := eval vm_compute in (is_ws c) in change (is_ws c) with b
         | |- context [starts_number ?c] =>
             let b := eval vm_compute in (starts_number c) in change (starts_number c) with b
         | |- context [code ?c =? ?n] =>
             let b := eval vm_compute in (code c =? n) in change (code c =? n) with b
         end; cbv iota.

Lemma parse_string_quote_char c rest :
  parse_string (quote_char c rest)
  = match parse_string rest with
    | Some (str, k) => Some (String c str, k)
    | None => None
    end.
Proof. destruct c as [[] [] [] [] [] [] [] []]; reflexivity. Qed.

Lemma parse_string_quote s k :
  parse_string (quote_chars s (String dquote k)) = Some (s, k).
Proof.
  induction s as [| c s IH]; [reflexivity |].
  cbn [quote_chars]. rewrite parse_string_quote_char, IH. reflexivity.
Qed.

Lemma parse_number_text n k :
  number_text_ok n = true -> delimited k = true ->
  parse_number (Num.toString n +:+ k) = Some (JNum n, k).
Proof.
  unfold number_text_ok. intros Hn Hk.
  apply andb_prop in Hn as [Hn Hv]. apply andb_prop in Hn as [_ Hall].
  unfold parse_number. rewrite span_append.
  - destruct (number_of_token (Num.toString n)) as [n' |]; [| discriminate].
    apply same_eq in Hv as ->. reflexivity.
  - exact Hall.
  - destruct k as [| c k]; [exact I |]. cbn in Hk.
    destruct (is_number_char c); [discriminate | reflexivity].
Qed.

Lemma number_head c :
  starts_number c = true ->
  is_ws c = false /\ (code c =? 93) = false /\ (code c =? 125) = false.
Proof. destruct c as [[] [] [] [] [] [] [] []]; vm_compute; intuition discriminate. Qed.

Lemma parse_value_number f c r :
  starts_number c = true ->
  parse_value (S f) (String c r) = parse_number (String c r).
Proof.
  intros Hc. destruct (number_head c Hc) as (Hws & _).
  cbn [parse_value skip_ws]. rewrite Hws, Hc. reflexivity.
Qed.

Lemma safe_serializable v : json_safe v = true -> serializable v = true.
Proof. destruct v; cbn; congruence. Qed.

(** The text of a safe value begins with a byte that is neither white
    space nor a closing bracket. *)
Lemma ser_head v k :
  json_safe v = true ->
  exists c r, ser v k = String c r
              /\ is_ws c = false /\ (code c =? 93) = false /\ (code c =? 125) = false.
Proof.
  destruct v as [ | | [] | n | s | f | iso | name message | xs | ps]; cbn [json_safe];
    try discriminate; intros Hs.
  1-3, 5-7: eexists _, _; split; [reflexivity | vm_compute; auto].
  apply andb_prop in Hs as [Hfin Hok]. unfold number_text_ok in Hok.
  cbn [ser]. rewrite Hfin.
  destruct (Num.toString n) as [| c t]; [discriminate |].
  apply andb_prop in Hok as [Hok _]. apply andb_prop in Hok as [Hc _].
  exists c, (t +:+ k). split; [reflexivity | apply number_head, Hc].
Qed.

Lemma skip_ws_head c r : is_ws c = false -> skip_ws (String c r) = String c r.
Proof. intros H. cbn [skip_ws]. rewrite H. reflexivity. Qed.

Lemma parse_elements_last f s x k :
  parse_value f s = Some (x, String "]" k) -> parse_elements (S f) s = Some ([x], k).
Proof. intros H. cbn [parse_elements]. rewrite H. reflexivity. Qed.

Lemma parse_elements_more f s x k :
  parse_value f s = Some (x, String "," k) ->
  parse_elements (S f) s
  = match parse_elements f k with
    | Some (vs, rest) => Some (x :: vs, rest)
    | None => None
    end.
Proof. intros H. cbn [parse_elements]. rewrite H. reflexivity. Qed.

Lemma parse_elements_ser xs :
  Forall reads_back xs -> forallb json_safe xs = true -> xs <> [] ->
  forall fuel k, (need xs <= fuel)%nat ->
  parse_elements fuel (ser_elements ser k xs) = Some (xs, k).
Proof.
  induction 1 as [| x xs Hx Hxs IH]; [congruence |].
  intros Hsafe _ fuel k Hfuel. cbn [forallb] in Hsafe. apply andb_prop in Hsafe as [Hsx Hsxs].
  change (need (x :: xs)) with (S (size x) + need xs)%nat in Hfuel.
  destruct fuel as [| f]; [lia |].
  cbn [ser_elements]. destruct xs as [| x' xs'].
  - apply parse_elements_last. apply Hx; [exact Hsx | reflexivity | lia].
  - erewrite parse_elements_more by (apply Hx; [exact Hsx | reflexivity | lia]).
    rewrite IH; [reflexivity | exact Hsxs | discriminate | lia].
Qed.

Lemma parse_members_last f key body v k :
  parse_value f body = Some (v, String "}" k) ->
  parse_members (S f) (quote key (String ":" body)) = Some ([(key, v)], k).
Proof.
  intros H. unfold quote. cbn [parse_members skip_ws]. eval_char.
  rewrite parse_string_quote. cbn [skip_ws]. eval_char. rewrite H.
  cbn [skip_ws]. eval_char. reflexivity.
Qed.

Lemma parse_members_more f key body v k :
  parse_value f body = Some (v, String "," k) ->
  parse_members (S f) (quote key (String ":" body))
  = match parse_members f k with
    | Some (ms, rest) => Some ((key, v) :: ms, rest)
    | None => None
    end.
Proof.
  intros H. unfold quote. cbn [parse_members skip_ws]. eval_char.
  rewrite parse_string_quote. cbn [skip_ws]. eval_char. rewrite H.
  cbn [skip_ws]. eval_char. reflexivity.
Qed.

Lemma parse_members_ser ps :
  Forall (fun p => reads_back p.2) ps -> forallb (fun p => json_safe p.2) ps = true ->
  forall fuel k key v,
    reads_back v -> json_safe v = true -> (S (size v) + need_members ps <= fuel)%nat ->
    parse_members fuel (quote key (String ":" (ser v (ser_members ser k false ps))))
    = Some ((key, v) :: ps, k).
Proof.
  induction 1 as [| [key' v'] ps Hv' Hps IH]; intros Hsafe fuel k key v Hv Hsv Hfuel.
  - destruct fuel as [| f]; [lia |].
    apply parse_members_last. apply Hv; [exact Hsv | reflexivity | cbn in Hfuel; lia].
  - cbn [forallb] in Hsafe. apply andb_prop in Hsafe as [Hsv' Hsps]. cbn [snd] in Hv', Hsv'.
    change (need_members ((key', v') :: ps)) with (S (size v') + need_members ps)%nat in Hfuel.
    destruct fuel as [| f]; [lia |].
    cbn [ser_members]. rewrite (safe_serializable v' Hsv').
    erewrite parse_members_more by (apply Hv; [exact Hsv | reflexivity | lia]).
    rewrite IH; [reflexivity | exact Hsps | exact Hv' | exact Hsv' | lia].
Qed.

Lemma distinct_NoDup ks : distinct ks = true -> NoDup ks.
Proof.
  induction ks as [| k ks IH]; [constructor |].
  cbn [distinct]. intros H. apply andb_prop in H as [Hk Hks].
  constructor; [| apply IH, Hks].
  intros Hin. apply negb_true_iff in Hk. apply not_true_iff_false in Hk. apply Hk.
  apply existsb_exists. exists k. split; [apply list_elem_of_In, Hin | apply String.eqb_refl].
Qed.

Lemma set_prop_fresh k v ps :
  k ∉ map fst ps -> set_prop k v ps = ps ++ [(k, v)].
Proof.
  induction ps as [| [k' v'] ps IH]; [reflexivity |].
  cbn [map fst set_prop]. intros Hk. apply not_elem_of_cons in Hk as [Hne Hk].
  destruct (String.eqb_spec k k') as [-> | _]; [contradiction |].
  rewrite (IH Hk). reflexivity.
Qed.

Lemma fold_set_prop ms acc :
  NoDup (map fst (acc ++ ms)) ->
  fold_left (fun ps m => set_prop m.1 m.2 ps) ms acc = acc ++ ms.
Proof.
  revert acc. induction ms as [| [k v] ms IH]; intros acc Hnd; [rewrite app_nil_r; reflexivity |].
  cbn [fold_left fst snd].
  rewrite set_prop_fresh.
  - rewrite IH; [rewrite <- app_assoc; reflexivity |].
    rewrite <- app_assoc. exact Hnd.
  - rewrite map_app in Hnd. apply NoDup_app in Hnd as (_ & Hdis & _).
    intros Hin. apply (Hdis k Hin). cbn. left.
Qed.

Lemma object_of_distinct ms : distinct (map fst ms) = true -> object_of ms = JObj ms.
Proof.
  intros H. unfold object_of. rewrite fold_set_prop; [reflexivity |]. apply distinct_NoDup, H.
Qed.

(** Every safe value is read back from its text. *)
Lemma parse_value_ser v : reads_back v.
Proof.
  induction v as [ | | b | n | s | f | iso | name message | xs Hxs | ps Hps]
    using JsVal_nested_ind; intros Hsafe fuel k Hk Hfuel; try discriminate;
    (destruct fuel as [| fuel]; [cbn in Hfuel; lia |]).
  - reflexivity.
  - destruct b; reflexivity.
  - cbn [json_safe] in Hsafe. apply andb_prop in Hsafe as [Hfin Hok].
    cbn [ser]. rewrite Hfin.
    pose proof Hok as Hhead. unfold number_text_ok in Hhead.
    destruct (Num.toString n) as [| c t] eqn:Ht; [discriminate |].
    apply andb_prop in Hhead as [Hhead _]. apply andb_prop in Hhead as [Hc _].
    rewrite append_cons, (parse_value_number _ _ _ Hc), <- append_cons, <- Ht.
    apply parse_number_text; assumption.
  - cbn [ser]. unfold quote. cbn [parse_value skip_ws]. eval_char.
    rewrite parse_string_quote. reflexivity.
  - cbn [json_safe] in Hsafe. cbn [ser]. cbn [parse_value skip_ws]. eval_char.
    destruct xs as [| x xs]; [reflexivity |].
    destruct (ser_head x
                (match xs with
                 | [] => ser_elements ser k xs
                 | _ :: _ => String "," (ser_elements ser k xs)
                 end))
      as (c & r & Hser & Hws & Hc & _).
    { cbn [forallb] in Hsafe. apply andb_prop in Hsafe as [H _]. exact H. }
    change (size (JArr (x :: xs))) with (S (need (x :: xs))) in Hfuel.
    rewrite (parse_elements_ser (x :: xs) Hxs Hsafe) by (discriminate || lia).
    cbn [ser_elements]. rewrite Hser, (skip_ws_head _ _ Hws), Hc. reflexivity.
  - cbn [json_safe] in Hsafe. apply andb_prop in Hsafe as [Hdist Hsafe].
    cbn [ser]. cbn [parse_value skip_ws]. eval_char.
    destruct ps as [| [key v] ps]; [reflexivity |].
    cbn [ser_members]. cbn [forallb snd] in Hsafe. apply andb_prop in Hsafe as [Hsv Hsps].
    rewrite (safe_serializable v Hsv).
    change (size (JObj ((key, v) :: ps))) with (S (S (size v) + need_members ps)) in Hfuel.
    inversion Hps as [| ? ? Hv Hps']; subst.
    rewrite (parse_members_ser ps Hps' Hsps fuel k key v Hv Hsv) by lia.
    unfold quote. rewrite skip_ws_head by reflexivity. eval_char.
    rewrite object_of_distinct by exact Hdist. reflexivity.
Qed.

Lemma length_quote_char c k : (S (String.length k) <= String.length (quote_char c k))%nat.
Proof.
  destruct c as [[] [] [] [] [] [] [] []];
    match goal with
    | |- context [quote_char ?c ?k] =>
        let t := eval vm_compute in (quote_char c k) in change (quote_char c k) with t
    end; cbn [String.length]; lia.
Qed.

Lemma length_quote s k : (2 + String.length k <= String.length (quote s k))%nat.
Proof.
  unfold quote. cbn [String.length].
  assert (H : (S (String.length k) <= String.length (quote_chars s (String dquote k)))%nat).
  { induction s as [| c s IH]; [cbn [quote_chars String.length]; lia |].
    cbn [quote_chars]. pose proof (length_quote_char c (quote_chars s (String dquote k))). lia. }
  lia.
Qed.

Lemma length_elements xs :
  Forall long_enough xs -> forallb json_safe xs = true ->
  forall k, (need xs + String.length k <= String.length (ser_elements ser k xs))%nat.
Proof.
  induction 1 as [| x xs Hx Hxs IH]; intros Hsafe k; [cbn; lia |].
  cbn [forallb] in Hsafe. apply andb_prop in Hsafe as [Hsx Hsxs].
  change (need (x :: xs)) with (S (size x) + need xs)%nat.
  cbn [ser_elements]. specialize (IH Hsxs k).
  destruct xs as [| x' xs'].
  - pose proof (Hx Hsx (ser_elements ser k [])) as H. cbn [ser_elements String.length] in H |- *.
    change (need []) with O. lia.
  - pose proof (Hx Hsx (String "," (ser_elements ser k (x' :: xs')))) as H.
    cbn [String.length] in H. lia.
Qed.

Lemma length_members ps :
  Forall (fun p => long_enough p.2) ps -> forallb (fun p => json_safe p.2) ps = true ->
  forall k first,
    (need_members ps + String.length k <= String.length (ser_members ser k first ps))%nat.
Proof.
  induction 1 as [| [key v] ps Hv Hps IH]; intros Hsafe k first; [cbn; lia |].
  cbn [forallb snd] in Hsafe. apply andb_prop in Hsafe as [Hsv Hsps]. cbn [snd] in Hv.
  change (need_members ((key, v) :: ps)) with (S (size v) + need_members ps)%nat.
  cbn [ser_members]. rewrite (safe_serializable v Hsv). specialize (IH Hsps k false).
  pose proof (Hv Hsv (ser_members ser k false ps)) as H.
  pose proof (length_quote key (String ":" (ser v (ser_members ser k false ps)))) as Hq.
  cbn [String.length] in Hq. destruct first; cbn [String.length]; lia.
Qed.

Lemma ser_long_enough v : long_enough v.
Proof.
  induction v as [ | | b | n | s | f | iso | name message | xs Hxs | ps Hps]
    using JsVal_nested_ind; intros Hsafe k; try discriminate.
  - cbn [ser size]. rewrite length_append. cbn. lia.
  - cbn [ser size]. rewrite length_append. destruct b; cbn; lia.
  - cbn [json_safe] in Hsafe. apply andb_prop in Hsafe as [Hfin Hok].
    cbn [ser size]. rewrite Hfin, length_append. unfold number_text_ok in Hok.
    destruct (Num.toString n); [discriminate |]. cbn [String.length]. lia.
  - cbn [ser size]. pose proof (length_quote s k). lia.
  - cbn [json_safe] in Hsafe. pose proof (length_elements xs Hxs Hsafe k).
    change (size (JArr xs)) with (S (need xs)). cbn [ser String.length]. lia.
  - cbn [json_safe] in Hsafe. apply andb_prop in Hsafe as [_ Hsafe].
    pose proof (length_members ps Hps Hsafe k true).
    change (size (JObj ps)) with (S (need_members ps)). cbn [ser String.length]. lia.
Qed.

(** [JSON.parse(JSON.stringify(v))] is [v], for a safe [v]. *)
Lemma parse_stringify v :
  json_safe v = true ->
  exists text, stringify v = Some text /\ parse text = Return v.
Proof.
  intros Hsafe. exists (ser v EmptyString). split.
  - unfold stringify. rewrite (safe_serializable v Hsafe). reflexivity.
  - unfold parse. rewrite (parse_value_ser v Hsafe); [reflexivity | reflexivity |].
    pose proof (ser_long_enough v Hsafe EmptyString). lia.
Qed.

Lemma lookup_prop_distinct ps k v :
  NoDup (map fst ps) -> (k, v) ∈ ps -> lookup_prop k ps = Some v.
Proof.
  induction ps as [| [k' v'] ps IH]; intros Hnd Hin; [inversion Hin |].
  cbn [map fst] in Hnd. apply NoDup_cons in Hnd as [Hk' Hnd].
  cbn [lookup_prop]. apply elem_of_cons in Hin as [Heq | Hin].
  - inversion Heq; subst. rewrite String.eqb_refl. reflexivity.
  - destruct (String.eqb_spec k k') as [-> | _]; [| apply IH; assumption].
    exfalso. apply Hk'. apply (list_elem_of_fmap_2 fst _ _ Hin).
Qed.

(** A safe value is deep-equal to itself. *)
Lemma deep_equal_refl v : json_safe v = true -> deep_equal v v = true.
Proof.
  induction v as [ | | b | n | s | f | iso | name message | xs Hxs | ps Hps]
    using JsVal_nested_ind; intros Hsafe; try discriminate.
  - reflexivity.
  - destruct b; reflexivity.
  - apply same_refl.
  - apply String.eqb_refl.
  - cbn [json_safe] in Hsafe. cbn [deep_equal].
    induction Hxs as [| x xs Hx _ IH]; [reflexivity |].
    cbn [forallb] in Hsafe. apply andb_prop in Hsafe as [Hsx Hsxs].
    rewrite (Hx Hsx), (IH Hsxs). reflexivity.
  - cbn [json_safe] in Hsafe. apply andb_prop in Hsafe as [Hdist Hsafe].
    apply distinct_NoDup in Hdist. cbn [deep_equal]. rewrite Nat.eqb_refl. cbn [andb].
    assert (Hall : forall k v, (k, v) ∈ ps -> lookup_prop k ps = Some v)
      by (intros k v; apply lookup_prop_distinct, Hdist).
    clear Hdist. revert Hall Hsafe. generalize ps at 2 4 as qs.
    induction Hps as [| [k v] ps' Hv _ IH]; intros qs Hall Hsafe; [reflexivity |].
    cbn [forallb snd] in Hsafe. apply andb_prop in Hsafe as [Hsv Hsps]. cbn [snd] in Hv.
    rewrite (Hall k v) by left. rewrite (Hv Hsv). cbn [andb].
    apply IH; [| exact Hsps]. intros k' v' Hin. apply Hall. right. exact Hin.
Qed.

End ReadBack.

(** ** TTL resolution *)

Section TimeToLive.

Import Etcd3Store Fixtures.

(** Capping by comparison is taking the minimum with the cap. *)
Lemma cap_is_min (x : JsNumber) :
  (if Num.gt x maxTTL then maxTTL else x) = Num.min x Spec.max_lease.
Proof.
  unfold Num.gt, Num.min, SFltb, Spec.max_lease, maxTTL.
  change (Num.of_Z 6442450) with (S754_finite false 6917528014028800 (-30)).
  destruct x as [[] | [] | | [] m e]; try reflexivity.
  cbn [SFcompare].
  rewrite (Z.compare_antisym e (-30)).
  destruct (e ?= -30) eqn:He; cbn [CompOpp]; try reflexivity.
  change (Pos.compare_cont Eq 6917528014028800 m)
    with (Pos.compare_cont (CompOpp Eq) 6917528014028800 m).
  rewrite <- Pos.compare_cont_antisym.
  destruct (Pos.compare_cont Eq m 6917528014028800) eqn:Hm; cbn [CompOpp]; try reflexivity.
  apply Pos.compare_eq in Hm. apply Z.compare_eq in He. subst. reflexivity.
Qed.

(** The examples of the specification: 10000 ms give 10 s; no [maxAge]
    gives one day; the string 42 gives 42; a plain object is refused; a
    value above the cap is capped. *)
Example ttl_of_maxAge :
  getTTL ttlFunc (new None) (with_maxAge (JNum (Num.of_Z 10000))) "sid" = Return (Num.of_Z 10).
Proof. vm_compute. reflexivity. Qed.

Example ttl_default :
  getTTL ttlFunc (new None) (with_maxAge JUndefined) "sid" = Return (Num.of_Z 86400).
Proof. vm_compute. reflexivity. Qed.

Example ttl_of_string :
  getTTL ttlFunc (with_ttl (JStr "42")) sessionData "sid" = Return (Num.of_Z 42).
Proof. vm_compute. reflexivity. Qed.

Example ttl_of_function :
  getTTL ttlFunc (with_ttl (JFun 0)) sessionData "sid" = Return (Num.of_Z 666).
Proof. vm_compute. reflexivity. Qed.

Example ttl_of_object :
  getTTL ttlFunc (with_ttl (JObj [])) sessionData "sid"
  = Throw (TypeError "`store.ttl` must be a number or function.").
Proof. vm_compute. reflexivity. Qed.

Example ttl_capped :
  getTTL ttlFunc (with_ttl (JNum (Num.of_Z 10000000))) sessionData "sid"
  = Return (Num.of_Z 6442450)
  /\ getTTL ttlFunc (with_ttl (JNum Num.Infinity)) sessionData "sid"
     = Return (Num.of_Z 6442450).
Proof. split; vm_compute; reflexivity. Qed.

End TimeToLive.

(** ** Runs of the operations *)

Ltac unfold_run :=
  unfold Etcd3Store.perform, Etcd3Store.get, Etcd3Store.set, Etcd3Store.touch, Etcd3Store.all,
    Etcd3Store.length, Etcd3Store.destroy, Etcd3Store.clear, Etcd3Store.callbackWithLog,
    Etcd3Store.callback, try_catch, then1, then_, drop, request, lease, release, emit, throw,
    lift, ret, mbind, M_bind, bind, log, start in *;
  cbn [client trace fst snd] in *.

Ltac single_run :=
  unfold single, settle; unfold_run;
  repeat first
    [ reflexivity
    | match goal with
      | |- context [match throws ?c ?q with _ => _ end] => destruct (throws c q)
      | |- context [match rejects ?c ?q with _ => _ end] => destruct (rejects c q)
      | |- context [match ?m !! ?k with _ => _ end] => destruct (m !! k)
      | |- context [Json.parse ?t] => destruct (Json.parse t)
      | |- context [match parse_all ?t with _ => _ end] => destruct (parse_all t)
      end
    | progress cbn -[range Json.parse parse_all] ].

Ltac crush_trace :=
  cbn zeta in *; repeat case_match; cbn in *; repeat split;
  intuition (simplify_eq; eauto).

Section Runs.

Import Etcd3Store Fixtures.

(** The ways a [set] can go, on a client that has recorded nothing yet. *)
Lemma set_run call this sid sess c :
  set call this sid sess (start c) =
  match getTTL call this sess sid with
  | Throw e => (Throw e, start c)
  | Return seconds =>
      let l := {| ttl_of := seconds |} in
      let put := CPut l (key this sid) (Json.stringify sess) in
      match throws c (CLease seconds) with
      | Some e =>
          (Return tt,
           {| client := c; trace := [Called (CLease seconds); Threw e; Callback e JUndefined] |})
      | None =>
          match throws c put with
          | Some e =>
              (Return tt,
               {| client := c;
                  trace := [Called (CLease seconds); Called put; Threw e; Callback e JUndefined] |})
          | None =>
              match rejects c put with
              | Some e =>
                  (Return tt,
                   {| client := c;
                      trace := [Called (CLease seconds); Called put; Settled (Rejected e);
                                Callback (default_null e) JNull] |})
              | None =>
                  match Json.stringify sess with
                  | Some text =>
                      (Return tt,
                       {| client :=
                            with_kvs c
                              (<[key this sid := {| value := text; lease_ttl := seconds |}]>
                                 (kvs c));
                          trace := [Called (CLease seconds); Called put;
                                    Settled (Fulfilled JUndefined); Called (CRelease l);
                                    Callback JNull JNull] |})
                  | None =>
                      let e := TypeError "The first argument must be of type string or Buffer" in
                      (Return tt,
                       {| client := c;
                          trace := [Called (CLease seconds); Called put; Threw e;
                                    Callback e JUndefined] |})
                  end
              end
          end
      end
  end.
Proof.
  unfold_run.
  destruct (getTTL call this sess sid) as [seconds | e]; [| reflexivity].
  cbn. destruct (throws c (CLease seconds)); [reflexivity |].
  cbn. destruct (throws c _); [reflexivity |].
  cbn. destruct (rejects c _); [reflexivity |].
  cbn. destruct (Json.stringify sess); reflexivity.
Qed.

Lemma get_run this sid c :
  get this sid (start c) = single (CGet (key this sid)) default_null caught_logged c.
Proof. single_run. Qed.

Lemma length_run this c :
  length this (start c)
  = single (CGetAllCount (key this EmptyString)) default_null caught_logged c.
Proof. single_run. Qed.

Lemma destroy_run this sid c :
  destroy this sid (start c)
  = single (CDeletePrefix (key this sid)) (fun _ => JNull) caught_plain c.
Proof. single_run. Qed.

Lemma clear_run this c :
  clear this (start c)
  = single (CDeletePrefix (key this EmptyString)) (fun _ => JNull) caught_logged c.
Proof. single_run. Qed.

Lemma all_run this c :
  all this (start c)
  = single (CGetAllJson (key this EmptyString))
      (fun v => match v with JObj ps => JArr (map snd ps) | _ => JNull end) caught_logged c.
Proof. single_run. Qed.

Lemma touch_run call this sid sess r :
  touch call this sid sess r =
  if bool_decide (skipTouch (config this) = Some true)
  then (Return tt, log (Callback JNull JUndefined) r)
  else set call this sid sess r.
Proof. unfold touch. destruct (skipTouch (config this)) as [[] |]; reflexivity. Qed.


(** What a prefix-scoped delete leaves, when the request goes through. *)
Lemma destroy_kvs this sid c :
  throws c (CDeletePrefix (key this sid)) = None ->
  rejects c (CDeletePrefix (key this sid)) = None ->
  destroy this sid (start c)
  = (Return tt,
     {| client := with_kvs c (out_of_prefix (key this sid) (kvs c));
        trace := [Called (CDeletePrefix (key this sid)); Settled (Fulfilled JUndefined);
                  Callback JNull JNull] |}).
Proof. intros Ht Hr. rewrite destroy_run. unfold single. rewrite Ht, Hr. reflexivity. Qed.

(** The part of the contract of [destroy] that holds: afterwards the id
    is gone, and [get] answers [null] with no error. *)
Lemma destroy_then_get this sid c :
  throws c = (fun _ => None) -> rejects c = (fun _ => None) ->
  trace (get this sid (start (client (destroy this sid (start c)).2))).2
  = [Called (CGet (key this sid)); Settled (Fulfilled JNull); Callback JNull JNull].
Proof.
  intros Ht Hr. rewrite destroy_kvs by (rewrite ?Ht, ?Hr; reflexivity).
  cbn [snd client]. rewrite get_run. unfold single. cbn [throws rejects with_kvs kvs].
  rewrite Ht, Hr. cbn [respond].
  rewrite lookup_out_of_prefix, prefix_refl. reflexivity.
Qed.

(** The end-to-end example of the specification: with prefix [sess],
    storing id [abc] with a [maxAge] of 5000 ms puts the serialized record
    at key [sess/abc] under a 5-second lease. *)
Example set_end_to_end :
  kvs (client (set ttlFunc (new None) "abc" (with_maxAge (JNum (Num.of_Z 5000)))
                 (start (healthy ∅))).2) !! "sess/abc"
  = Some (stored (with_maxAge (JNum (Num.of_Z 5000))) 5)
  /\ Json.parse (value (stored (with_maxAge (JNum (Num.of_Z 5000))) 5))
     = Return (with_maxAge (JNum (Num.of_Z 5000))).
Proof. split; vm_compute; reflexivity. Qed.

End Runs.

(** ** The contract *)

Section Contract.

Import Etcd3Store Fixtures.

(** C1. For every session record, session id and configuration, the TTL
    that [set] and [touch] resolve ([getTTL]) is the one of the reference
    definition [Spec.resolve_ttl]: a number override as it is; a string
    override through its numeric parse; a function override through its
    result on (adapter, record, sid); a type error for any other truthy
    override; otherwise [floor(maxAge / 1000)] for a numeric cookie
    [maxAge], or else 86400; the result capped at 6442450 seconds.  A
    resolved value is never refused for being too large, the value
    returned never exceeds the cap, and it is the TTL [set] leases. *)
Theorem getTTL_refines_resolution call this sess sid :
  is_session sess = true ->
  getTTL call this sess sid = Spec.resolve_ttl call this sess sid
  /\ (forall raw, getRawTTL call this sess sid = Return raw ->
        exists seconds, getTTL call this sess sid = Return seconds
                        /\ Num.gt seconds maxTTL = false)
  /\ (forall seconds c, Spec.resolve_ttl call this sess sid = Return seconds ->
        exists rest, trace (set call this sid sess (start c)).2 = Called (CLease seconds) :: rest).
Proof.
  intros Hs.
  assert (Heq : getTTL call this sess sid = Spec.resolve_ttl call this sess sid).
  { unfold getTTL, Spec.resolve_ttl, getRawTTL, Spec.resolve.
    destruct (ttl this) as [| | b | n | s | f | iso | nm msg | xs | ps] eqn:Ht; cbn;
      try (rewrite cap_is_min; reflexivity);
      try (destruct (call f this sess sid); [rewrite cap_is_min |]; reflexivity);
      try reflexivity.
    all: unfold is_session in Hs; destruct sess as [| | | | | | | | | sp]; try discriminate.
    all: try (destruct b; [reflexivity |]).
    all: cbn; unfold Spec.cookie_maxAge.
    all: destruct (lookup_prop "cookie" sp) as [[| | | | | | | | | cps] |]; try discriminate.
    all: cbn; destruct (lookup_prop "maxAge" cps) as [[] |]; cbn; rewrite cap_is_min; reflexivity. }
  split; [exact Heq | split].
  - intros raw Hraw. unfold getTTL. rewrite Hraw.
    eexists; split; [reflexivity |].
    destruct (Num.gt raw maxTTL) eqn:Hgt; [vm_compute; reflexivity | exact Hgt].
  - intros seconds c Hres. rewrite set_run, Heq, Hres. cbn zeta.
    repeat case_match; cbn; eauto.
Qed.

Lemma getTTL_refines_resolution_witness :
  getTTL ttlFunc (new None) sessionData "test-sid"
  = Spec.resolve_ttl ttlFunc (new None) sessionData "test-sid".
Proof.
  apply (proj1 (getTTL_refines_resolution ttlFunc (new None) sessionData "test-sid" eq_refl)).
Defined.

(** C2. With a malformed [ttl] override, [set] lets the type error out as
    a synchronous throw: nothing is requested from the store and the
    callback is never called.  So does [touch], unless it skips. *)
Theorem malformed_ttl_escapes_set call this sid sess c :
  malformed (ttl this) = true ->
  set call this sid sess (start c)
  = (Throw (TypeError "`store.ttl` must be a number or function."), start c)
  /\ (skipTouch (config this) <> Some true ->
      touch call this sid sess (start c)
      = (Throw (TypeError "`store.ttl` must be a number or function."), start c)).
Proof.
  intros Hbad.
  assert (Hset : set call this sid sess (start c)
                 = (Throw (TypeError "`store.ttl` must be a number or function."), start c)).
  { rewrite set_run. unfold getTTL, getRawTTL. unfold malformed in Hbad.
    destruct (ttl this) as [| | [] | | | | | | |]; cbn in Hbad;
      rewrite ?andb_false_r in Hbad; try discriminate; reflexivity. }
  split; [exact Hset |].
  intros Hskip. rewrite touch_run. case_bool_decide; [contradiction | exact Hset].
Qed.

Lemma malformed_ttl_escapes_set_witness :
  set ttlFunc (with_ttl (JObj [])) "test-sid" sessionData (start (healthy ∅))
  = (Throw (TypeError "`store.ttl` must be a number or function."), start (healthy ∅)).
Proof.
  apply (proj1 (malformed_ttl_escapes_set ttlFunc (with_ttl (JObj [])) "test-sid" sessionData
                  (healthy ∅) eq_refl)).
Defined.

(** C3. [destroy] deletes by prefix: destroying session [abc] also
    removes the record of the other session [abcd]. *)
Theorem destroy_removes_longer_ids :
  two_sessions !! "sess/abcd" = Some (stored sessionData 100)
  /\ destroy (new None) "abc" (start (healthy two_sessions))
     = (Return tt,
        {| client := healthy ∅;
           trace := [Called (CDeletePrefix "sess/abc"); Settled (Fulfilled JUndefined);
                     Callback JNull JNull] |}).
Proof.
  split; [reflexivity |].
  rewrite destroy_kvs by reflexivity.
  replace (out_of_prefix (key (new None) "abc") (kvs (healthy two_sessions)))
    with (∅ : gmap string KeyValue); [reflexivity |].
  symmetry. apply map_eq. intros k. rewrite lookup_out_of_prefix, lookup_empty.
  destruct (String.prefix (key (new None) "abc") k) eqn:Hp; [reflexivity |].
  cbn [healthy kvs]. unfold two_sessions.
  destruct (decide (k = "sess/abc")) as [-> | Hn1]; [discriminate |].
  destruct (decide (k = "sess/abcd")) as [-> | Hn2]; [discriminate |].
  rewrite !lookup_insert_ne by congruence. apply lookup_empty.
Qed.

(** C4, as stated, fails: with prefixes [a] and [a/b], clearing the
    first deletes a record of the second, and listing the first returns
    that record. *)
Lemma nested_prefixes_are_not_isolated :
  ("a" : string) <> "a/b"
  /\ key (with_prefix "a/b") "x" = "a/b/x"
  /\ nested_sessions !! key (with_prefix "a/b") "x" = Some (stored sessionData 100)
  /\ kvs (client (clear (with_prefix "a") (start (healthy nested_sessions))).2)
       !! key (with_prefix "a/b") "x" = None
  /\ List.filter is_callback (trace (all (with_prefix "a") (start (healthy nested_sessions))).2)
     = [Callback JNull (JArr [sessionData])].
Proof.
  split; [discriminate |]. split; [reflexivity |]. split; [reflexivity |]. split.
  - rewrite clear_run. unfold single. cbn [healthy throws rejects kvs respond snd client with_kvs].
    rewrite lookup_out_of_prefix. reflexivity.
  - vm_compute. reflexivity.
Qed.

(** C4, amended. For two adapters whose namespace paths ([key()]: the
    configured prefix, or [sess] when it is absent or empty, followed by
    a slash) are not a prefix of one another, [clear] on the first leaves
    every key of the second unchanged, and what [all] and [length] on the
    first let the caller see does not depend on what is stored under the
    second. *)
Theorem disjoint_prefixes_are_isolated thisP thisQ :
  String.prefix (key thisP EmptyString) (key thisQ EmptyString) = false ->
  String.prefix (key thisQ EmptyString) (key thisP EmptyString) = false ->
  (forall c sid,
     kvs (client (clear thisP (start c)).2) !! key thisQ sid = kvs c !! key thisQ sid)
  /\ (forall c m',
        (forall k, String.prefix (key thisQ EmptyString) k = false -> m' !! k = kvs c !! k) ->
        trace (all thisP (start (with_kvs c m'))).2 = trace (all thisP (start c)).2
        /\ trace (length thisP (start (with_kvs c m'))).2 = trace (length thisP (start c)).2).
Proof.
  intros Hpq Hqp. split.
  - intros c sid. rewrite clear_run. unfold single.
    repeat case_match; simplify_eq; cbn [snd client with_kvs kvs]; try reflexivity.
    all: cbn [respond] in *; simplify_eq.
    rewrite lookup_out_of_prefix.
    rewrite (disjoint_namespaces _ _ _ Hpq Hqp (prefix_key thisQ sid)). reflexivity.
  - intros c m' Hsame.
    assert (Hrange : range (key thisP EmptyString) m' = range (key thisP EmptyString) (kvs c)).
    { unfold range. f_equal. f_equal. apply map_eq. intros k. rewrite !lookup_in_prefix.
      destruct (String.prefix (key thisP EmptyString) k) eqn:Hp; [| reflexivity].
      apply Hsame. destruct (String.prefix (key thisQ EmptyString) k) eqn:Hq; [| reflexivity].
      rewrite (disjoint_namespaces _ _ _ Hpq Hqp Hq) in Hp. discriminate. }
    rewrite !all_run, !length_run. unfold single.
    cbn [with_kvs throws rejects kvs respond]. rewrite Hrange.
    split; repeat case_match; simplify_eq; reflexivity.
Qed.

Lemma disjoint_prefixes_are_isolated_witness :
  kvs (client (clear (new None) (start (healthy nested_sessions))).2)
    !! key (with_prefix "a/b") "x" = Some (stored sessionData 100).
Proof.
  rewrite (proj1 (disjoint_prefixes_are_isolated (new None) (with_prefix "a/b") eq_refl eq_refl)
             (healthy nested_sessions) "x").
  reflexivity.
Defined.

(** C5. With [skipTouch] set, [touch] calls the callback with a null
    error at once, requests nothing from the store and leaves it as it
    is; otherwise (the default included) [touch] is [set]. *)
Theorem touch_skips_or_sets call this sid sess r :
  (skipTouch (config this) = Some true ->
   touch call this sid sess r = (Return tt, log (Callback JNull JUndefined) r)
   /\ client (touch call this sid sess r).2 = client r
   /\ trace (touch call this sid sess r).2 = trace r ++ [Callback JNull JUndefined])
  /\ (skipTouch (config this) <> Some true ->
      touch call this sid sess r = set call this sid sess r)
  /\ skipTouch defaultOptions <> Some true.
Proof.
  rewrite touch_run. split; [| split]; [intros H | intros H | discriminate];
    case_bool_decide; try contradiction; auto.
Qed.

Lemma touch_skips_or_sets_witness :
  touch ttlFunc skipping "test-sid" sessionData (start (healthy ∅))
  = (Return tt, log (Callback JNull JUndefined) (start (healthy ∅)))
  /\ touch ttlFunc (new None) "test-sid" sessionData (start (healthy ∅))
     = set ttlFunc (new None) "test-sid" sessionData (start (healthy ∅)).
Proof.
  split.
  - apply (proj1 (touch_skips_or_sets ttlFunc skipping "test-sid" sessionData (start (healthy ∅)))).
    reflexivity.
  - apply (proj1 (proj2 (touch_skips_or_sets ttlFunc (new None) "test-sid" sessionData
                           (start (healthy ∅))))).
    discriminate.
Defined.

(** C6, as stated, fails: a record whose cookie carries its expiry as a
    [Date] is stored successfully and comes back with a string in its
    place. *)
Lemma set_then_get_loses_dates :
  is_session datedSession = true
  /\ In (Settled (Fulfilled JUndefined))
       (trace (set ttlFunc (new None) "abc" datedSession (start (healthy ∅))).2)
  /\ exists v,
       trace (get (new None) "abc"
                (start (client (set ttlFunc (new None) "abc" datedSession
                                  (start (healthy ∅))).2))).2
       = [Called (CGet "sess/abc"); Settled (Fulfilled v); Callback JNull v]
       /\ lookup_prop "expires" (match get_prop v "cookie" with
                                 | Return (JObj cps) => cps
                                 | _ => []
                                 end)
          = Some (JStr "2026-11-02T19:10:00.000Z")
       /\ deep_equal v datedSession = false.
Proof.
  split; [reflexivity |]. split; [vm_compute; auto |].
  eexists. split; [vm_compute; reflexivity |]. split; vm_compute; reflexivity.
Qed.

(** C6, amended. For every session id and every record built only from
    [null], booleans, strings, finite numbers whose decimal text reads
    back as the same number, arrays, and objects with distinct keys
    ([json_safe]), a successful [set] followed at once by a [get] that
    reaches the store hands the callback that very record, which is
    deep-equal to the one stored. *)
Theorem set_then_get_returns_safe_record call this sid sess c :
  Json.json_safe sess = true ->
  In (Settled (Fulfilled JUndefined)) (trace (set call this sid sess (start c)).2) ->
  throws c (CGet (key this sid)) = None -> rejects c (CGet (key this sid)) = None ->
  get this sid (start (client (set call this sid sess (start c)).2))
  = (Return tt,
     {| client := client (set call this sid sess (start c)).2;
        trace := [Called (CGet (key this sid)); Settled (Fulfilled sess); Callback JNull sess] |})
  /\ deep_equal sess sess = true.
Proof.
  intros Hsafe Hput Ht Hr. split; [| apply deep_equal_refl, Hsafe].
  destruct (parse_stringify sess Hsafe) as (text & Htext & Hparse).
  rewrite set_run in *. rewrite Htext in *. cbn zeta in *.
  repeat case_match; cbn [snd trace client] in *;
    try (cbn in Hput; intuition discriminate).
  rewrite get_run. unfold single. cbn [with_kvs throws rejects kvs]. rewrite Ht, Hr.
  cbn [respond]. rewrite lookup_insert_eq. cbn [value]. rewrite Hparse. cbn [settle].
  destruct sess; try discriminate; reflexivity.
Qed.

Lemma set_then_get_returns_safe_record_witness :
  trace (get (with_ttl (JNum (Num.of_Z 100))) "newTestSid"
           (start (client (set ttlFunc (with_ttl (JNum (Num.of_Z 100))) "newTestSid" sessionData
                             (start (healthy ∅))).2))).2
  = [Called (CGet "sess/newTestSid"); Settled (Fulfilled sessionData); Callback JNull sessionData].
Proof.
  rewrite (proj1 (set_then_get_returns_safe_record ttlFunc (with_ttl (JNum (Num.of_Z 100)))
                    "newTestSid" sessionData (healthy ∅)
                    ltac:(vm_compute; reflexivity) ltac:(vm_compute; auto) eq_refl eq_refl)).
  reflexivity.
Defined.



(** C8. When the [prefix] option is absent or the empty string, the key
    of session [sid] is [sess/] followed by [sid], and every key or key
    prefix that any operation names to the store is built that way. *)
Theorem falsy_prefix_defaults_to_sess this :
  prefix (config this) = None \/ prefix (config this) = Some EmptyString ->
  (forall sid, key this sid = "sess/" +:+ sid)
  /\ (forall call op c cl k,
        In (Called cl) (trace (perform call this op (start c)).2) ->
        target cl = Some k -> k = "sess/" +:+ sid_of op).
Proof.
  intros Hp. split; [intros sid; apply key_falsy_prefix, Hp |].
  pose proof (fun sid => key_falsy_prefix this sid Hp) as Hk.
  intros call op c cl k.
  destruct op; cbn [perform sid_of];
    rewrite ?touch_run, ?get_run, ?set_run, ?all_run, ?length_run, ?destroy_run, ?clear_run;
    unfold single, caught_logged, caught_plain; intros H Ht.
  all: try (destruct (bool_decide _); [cbn in H; intuition discriminate | rewrite set_run in *]).
  all: rewrite ?Hk in *; clear Hk Hp.
  all: crush_trace.
  all: try (cbn in *; congruence).
Qed.

Lemma falsy_prefix_defaults_to_sess_witness :
  key (with_prefix EmptyString) "abc" = "sess/abc".
Proof.
  apply (proj1 (falsy_prefix_defaults_to_sess (with_prefix EmptyString) (or_intror eq_refl)) "abc").
Defined.

(** C9. For a string [ttl] override that does not parse as a number, TTL
    resolution returns NaN and signals nothing; [set] returns normally
    and the first thing it does is to ask the client for a lease of NaN
    seconds. *)
Theorem unparsable_string_ttl_is_nan call this sid sess s c :
  ttl this = JStr s -> Num.StringToNumber s = Num.NaN ->
  getTTL call this sess sid = Return Num.NaN
  /\ (set call this sid sess (start c)).1 = Return tt
  /\ exists rest, trace (set call this sid sess (start c)).2 = Called (CLease Num.NaN) :: rest.
Proof.
  intros Ht Hs.
  assert (Httl : getTTL call this sess sid = Return Num.NaN).
  { unfold getTTL, getRawTTL. rewrite Ht, Hs. reflexivity. }
  split; [exact Httl |].
  rewrite set_run, Httl. cbn zeta.
  repeat case_match; cbn; eauto.
Qed.

Lemma unparsable_string_ttl_is_nan_witness :
  getTTL ttlFunc (with_ttl (JStr "abc")) sessionData "test-sid" = Return Num.NaN.
Proof.
  apply (proj1 (unparsable_string_ttl_is_nan ttlFunc (with_ttl (JStr "abc")) "test-sid"
                  sessionData "abc" (healthy ∅) eq_refl ltac:(vm_compute; reflexivity))).
Defined.

(** C10. When the put of a [set] is fulfilled, the adapter releases the
    lease it created for it right after, and then calls the callback with
    success; when the put is not fulfilled the adapter never releases the
    lease. *)
Theorem set_releases_lease_after_put call this sid sess c :
  (forall v, In (Settled (Fulfilled v)) (trace (set call this sid sess (start c)).2) ->
     exists seconds text,
       trace (set call this sid sess (start c)).2
       = [Called (CLease seconds);
          Called (CPut {| ttl_of := seconds |} (key this sid) (Some text));
          Settled (Fulfilled v);
          Called (CRelease {| ttl_of := seconds |});
          Callback JNull JNull])
  /\ ((forall v, ~ In (Settled (Fulfilled v)) (trace (set call this sid sess (start c)).2)) ->
      List.filter is_release (trace (set call this sid sess (start c)).2) = []).
Proof.
  rewrite set_run. split.
  - intros v H. crush_trace.
  - intros H. cbn zeta in *. repeat case_match; cbn in *; try reflexivity.
    exfalso. apply (H JUndefined). auto.
Qed.

Lemma set_releases_lease_after_put_witness :
  (exists seconds text,
     trace (set ttlFunc (with_ttl (JNum (Num.of_Z 100))) "newTestSid" sessionData
              (start (healthy ∅))).2
     = [Called (CLease seconds);
        Called (CPut {| ttl_of := seconds |}
                  (key (with_ttl (JNum (Num.of_Z 100))) "newTestSid") (Some text));
        Settled (Fulfilled JUndefined);
        Called (CRelease {| ttl_of := seconds |});
        Callback JNull JNull])
  /\ List.filter is_release
       (trace (set ttlFunc (with_ttl (JNum (Num.of_Z 100))) "newTestSid" sessionData
                 (start (rejecting (JStr "any rejection") ∅))).2) = [].
Proof.
  split.
  - apply (proj1 (set_releases_lease_after_put ttlFunc (with_ttl (JNum (Num.of_Z 100)))
                    "newTestSid" sessionData (healthy ∅)) JUndefined).
    vm_compute. auto.
  - apply (proj2 (set_releases_lease_after_put ttlFunc (with_ttl (JNum (Num.of_Z 100)))
                    "newTestSid" sessionData (rejecting (JStr "any rejection") ∅))).
    intros v H. vm_compute in H. intuition discriminate.
Defined.

End Contract.

(** * Further properties of the adapter *)

Ltac cases := repeat (first [progress simplify_eq | case_match | progress cbn in *]).

Ltac run_of op :=
  destruct op; cbn [Etcd3Store.perform catches_plainly];
  rewrite ?touch_run, ?get_run, ?set_run, ?all_run, ?length_run, ?destroy_run, ?clear_run;
  unfold single, caught, caught_logged, caught_plain.

Ltac unfold_legacy :=
  unfold Legacy.perform, Legacy.get, Legacy.set, Legacy.touch, Legacy.all, Legacy.length,
    Legacy.destroy, Legacy.clear, Etcd3Store.callback, try_catch, then1, then_, drop, request,
    lease, release, emit, throw, lift, ret, mbind, M_bind, bind, log, start in *;
  cbn [client trace fst snd] in *.

(** ** More on strings and on the store *)

Lemma prefix_trans p q k :
  String.prefix p q = true -> String.prefix q k = true -> String.prefix p k = true.
Proof.
  revert q k. induction p as [| a p IH]; intros q k Hpq Hqk; [apply prefix_empty |].
  destruct q as [| b q]; [discriminate |].
  destruct k as [| c k]; [discriminate |].
  cbn [String.prefix] in *.
  destruct (ascii_dec a b) as [-> |]; [| discriminate].
  destruct (ascii_dec b c) as [-> |]; [| discriminate].
  eapply IH; eassumption.
Qed.

Lemma prefix_append_cancel p s t : String.prefix (p +:+ s) (p +:+ t) = String.prefix s t.
Proof.
  induction p as [| a p IH]; [reflexivity |].
  rewrite !append_cons. cbn [String.prefix].
  destruct (ascii_dec a a); [exact IH | contradiction].
Qed.

Lemma append_cancel p s t : p +:+ s = p +:+ t -> s = t.
Proof.
  induction p as [| a p IH]; [intros H; exact H |].
  rewrite !append_cons. intros H. injection H as H. apply IH, H.
Qed.

(** Two slash-free names followed by a slash and a rest: equal texts have
    equal names and equal rests. *)
Lemma slash_free_split p q s t :
  slash_free p = true -> slash_free q = true ->
  p +:+ "/" +:+ s = q +:+ "/" +:+ t -> p = q /\ s = t.
Proof.
  revert q. induction p as [| a p IH]; intros [| b q] Hp Hq H.
  - rewrite !append_nil, !append_cons in H. injection H as H. auto.
  - exfalso. rewrite append_nil, !append_cons in H. injection H as <- _.
    cbn [slash_free] in Hq. apply andb_prop in Hq as [Hq _]. vm_compute in Hq. discriminate.
  - exfalso. rewrite append_nil, !append_cons in H. injection H as -> _.
    cbn [slash_free] in Hp. apply andb_prop in Hp as [Hp _]. vm_compute in Hp. discriminate.
  - rewrite !append_cons in H. injection H as -> H.
    cbn [slash_free] in Hp, Hq.
    apply andb_prop in Hp as [_ Hp]. apply andb_prop in Hq as [_ Hq].
    destruct (IH q Hp Hq H) as [-> ->]. auto.
Qed.

Lemma length_range p (m : gmap string KeyValue) :
  List.length (range p m) = size (in_prefix p m).
Proof.
  unfold range. rewrite merge_sort_Permutation. apply length_map_to_list.
Qed.

Lemma size_in_prefix_insert p (m : gmap string KeyValue) k kv :
  String.prefix p k = true ->
  size (in_prefix p (<[k := kv]> m))
  = match m !! k with Some _ => size (in_prefix p m) | None => S (size (in_prefix p m)) end.
Proof.
  intros Hp. pose proof (lookup_in_prefix p m k) as Hk. rewrite Hp in Hk.
  unfold in_prefix in *. rewrite map_filter_insert_True by exact Hp.
  rewrite map_size_insert, Hk. destruct (m !! k); reflexivity.
Qed.

Lemma parse_all_length l ps : parse_all l = Return ps -> List.length ps = List.length l.
Proof.
  revert ps. induction l as [| [k kv] l IH]; intros ps H; cbn [parse_all] in H.
  - injection H as <-. reflexivity.
  - destruct (Json.parse (value kv)); [| discriminate].
    destruct (parse_all l) as [ps' |]; [| discriminate].
    injection H as <-. cbn. rewrite (IH ps' eq_refl). reflexivity.
Qed.

(** When every value decodes, so does the range, value by value. *)
Lemma parse_all_decodes l :
  (forall k kv, (k, kv) ∈ l -> decodes (value kv) = true) ->
  exists ps,
    parse_all l = Return ps
    /\ forall k kv v, (k, kv) ∈ l -> Json.parse (value kv) = Return v -> (k, v) ∈ ps.
Proof.
  unfold decodes. induction l as [| [k kv] l IH]; intros Hall.
  - exists []. split; [reflexivity |]. intros k kv v Hin. inversion Hin.
  - destruct IH as (ps & Hps & Hin).
    { intros k' kv' H. apply (Hall k' kv'). right. exact H. }
    pose proof (Hall k kv ltac:(left)) as Hk.
    cbn [parse_all]. destruct (Json.parse (value kv)) as [v |] eqn:Hp; [| discriminate].
    rewrite Hps. exists ((k, v) :: ps). split; [reflexivity |].
    intros k' kv' v' H Hv. apply elem_of_cons in H as [Heq | H].
    + injection Heq as -> ->. rewrite Hp in Hv. injection Hv as ->. left.
    + right. eapply Hin; eassumption.
Qed.

(** ** [Number] of a text of digits *)

Lemma append_empty s : s +:+ EmptyString = s.
Proof. induction s as [| a s IH]; [reflexivity |]. rewrite append_cons, IH. reflexivity. Qed.

(** What a digit is not. *)
Lemma digit_is_plain c :
  is_digit c = true ->
  Num.ws1 c = false
  /\ (code c =? 45) = false /\ (code c =? 43) = false
  /\ (code c =? 120) || (code c =? 88) = false
  /\ (code c =? 111) || (code c =? 79) = false
  /\ (code c =? 98) || (code c =? 66) = false
  /\ (code c =? 46) = false
  /\ (code c =? 101) || (code c =? 69) = false
  /\ Ascii.eqb "I" c = false
  /\ (forall c2, Num.ws2 c c2 = false)
  /\ (forall c2 c3, Num.ws3 c c2 c3 = false)
  /\ exists d, digit_value c = Some d /\ 0 <= d.
Proof.
  destruct c as [[] [] [] [] [] [] [] []]; intros H; try discriminate H.
  all: repeat split; try reflexivity.
  all: eexists; split; [reflexivity | vm_compute; discriminate].
Qed.

Lemma skip_ws_digit c r : is_digit c = true -> Num.skip_ws (String c r) = String c r.
Proof.
  intros H. destruct (digit_is_plain c H) as (H1 & _ & _ & _ & _ & _ & _ & _ & _ & H2 & H3 & _).
  cbn [Num.skip_ws]. rewrite H1.
  destruct r as [| c2 r]; [reflexivity |]. rewrite H2.
  destruct r as [| c3 r]; [reflexivity |]. rewrite H3. reflexivity.
Qed.

Lemma digits_value_nonneg s acc :
  Json.all_chars is_digit s = true -> 0 <= acc -> 0 <= digits_value 10 acc s.
Proof.
  revert acc. induction s as [| c s IH]; intros acc Hs Hacc; [exact Hacc |].
  cbn [Json.all_chars] in Hs. apply andb_prop in Hs as [Hc Hs].
  cbn [digits_value]. apply IH; [exact Hs |].
  destruct (digit_is_plain c Hc) as (_ & _ & _ & _ & _ & _ & _ & _ & _ & _ & _ & d & -> & Hd).
  change (default 0 (Some d)) with d. lia.
Qed.

Lemma of_decimal_integer m : 0 <= m -> Num.of_decimal false m 0 = Num.of_Z m.
Proof.
  intros Hm. unfold Num.of_decimal, Num.of_Z.
  destruct (m =? 0) eqn:H0.
  - apply Z.eqb_eq in H0 as ->. reflexivity.
  - apply Z.eqb_neq in H0.
    replace (310 <? 0) with false by reflexivity.
    replace (0 + Z.log2 m + 1 <? -330) with false
      by (symmetry; apply Z.ltb_ge; pose proof (Z.log2_nonneg m); lia).
    replace (0 <=? 0) with true by reflexivity.
    replace (m <? 0) with false by (symmetry; apply Z.ltb_ge; lia).
    rewrite Z.abs_eq by lia. replace (m * 10 ^ 0) with m by (change (10 ^ 0) with 1; lia).
    reflexivity.
Qed.

(** [Number] of a text of decimal digits is the number they write. *)
Lemma StringToNumber_digits s :
  Json.all_chars is_digit s = true ->
  Num.StringToNumber s = Num.of_Z (digits_value 10 0 s).
Proof.
  intros Hs. destruct s as [| c r]; [reflexivity |].
  pose proof Hs as Hall. cbn [Json.all_chars] in Hs. apply andb_prop in Hs as [Hc Hr].
  destruct (digit_is_plain c Hc) as (_ & Hm & Hp & _ & _ & _ & _ & _ & HI & _).
  unfold Num.StringToNumber. rewrite (skip_ws_digit c r Hc). cbn [is_empty].
  assert (Hread : Num.read_numeric (String c r)
                  = Some (Num.of_Z (digits_value 10 0 (String c r)), EmptyString)).
  { cbn [Num.read_numeric]. rewrite Hm, Hp.
    assert (Hother : match r with
                     | String c' r' =>
                         if code c =? 48 then
                           if (code c' =? 120) || (code c' =? 88) then Num.read_radix 16 r'
                           else if (code c' =? 111) || (code c' =? 79) then Num.read_radix 8 r'
                           else if (code c' =? 98) || (code c' =? 66) then Num.read_radix 2 r'
                           else None
                         else None
                     | EmptyString => None
                     end = None).
    { destruct r as [| c' r']; [reflexivity |].
      cbn [Json.all_chars] in Hr. apply andb_prop in Hr as [Hc' _].
      destruct (digit_is_plain c' Hc') as (_ & _ & _ & -> & -> & -> & _).
      destruct (code c =? 48); reflexivity. }
    rewrite Hother. unfold Num.read_unsigned. cbn [starts_with]. rewrite HI. cbn [andb].
    unfold Num.read_decimal.
    pose proof (span_append is_digit (String c r) EmptyString Hall I) as Hspan.
    rewrite append_empty in Hspan. rewrite Hspan. cbn [is_empty andb Num.read_exponent].
    rewrite append_empty. cbn [String.length Z.of_nat]. 
    change (0 - 0) with 0.
    rewrite of_decimal_integer by (apply digits_value_nonneg; [exact Hall | lia]).
    reflexivity. }
  rewrite Hread. reflexivity.
Qed.

(** ** The text of a record and of its image *)

Section Image.

Import Json.

Lemma image_serializable v : serializable (image v) = true.
Proof.
  destruct v as [| | | n | | | | | |]; try reflexivity.
  cbn [image]. destruct (Num.is_finite n), (Num.is_zero n); reflexivity.
Qed.

Lemma ser_number_image n k : ser (JNum n) k = ser (image (JNum n)) k.
Proof.
  cbn [image]. destruct (Num.is_finite n) eqn:Hf.
  - destruct (Num.is_zero n) eqn:Hz; [| cbn [ser]; rewrite Hf; reflexivity].
    destruct n as [[] | | |]; try discriminate; vm_compute; reflexivity.
  - cbn [ser]. rewrite Hf. reflexivity.
Qed.

Lemma ser_elements_image k xs :
  Forall (fun x => forall k, ser x k = ser (image x) k) xs ->
  ser_elements ser k xs = ser_elements ser k (map image xs).
Proof.
  induction 1 as [| x xs Hx Hxs IH]; [reflexivity |].
  cbn [map ser_elements]. rewrite <- Hx.
  destruct xs as [| y ys]; [reflexivity |].
  change (map image (y :: ys)) with (image y :: map image ys) in *.
  rewrite IH. reflexivity.
Qed.

Lemma ser_members_image k ps :
  Forall (fun p => forall k, ser p.2 k = ser (image p.2) k) ps ->
  forall first, ser_members ser k first ps = ser_members ser k first (image_members image ps).
Proof.
  induction 1 as [| [key v] ps Hv Hps IH]; intros first; [reflexivity |].
  cbn [ser_members image_members]. destruct (serializable v) eqn:Hs; [| apply IH].
  cbn [ser_members]. rewrite image_serializable. cbn [snd] in Hv. rewrite <- Hv, <- IH.
  reflexivity.
Qed.

(** A value and its image have the same text. *)
Lemma ser_image v : forall k, ser v k = ser (image v) k.
Proof.
  induction v as [| | b | n | s | f | iso | name message | xs IH | ps IH]
    using JsVal_nested_ind; intros k; try reflexivity.
  - apply ser_number_image.
  - cbn [image ser]. f_equal. apply ser_elements_image, IH.
  - cbn [image ser]. f_equal. apply ser_members_image, IH.
Qed.

End Image.

(** ** What [JSON.parse] reads *)

Section Plain.

Import Json.

Lemma set_prop_plain k v ps :
  plain v = true -> forallb (fun p => plain (snd p)) ps = true ->
  forallb (fun p => plain (snd p)) (set_prop k v ps) = true.
Proof.
  intros Hv. induction ps as [| [k' v'] ps IH]; intros Hps; cbn [set_prop].
  - cbn. rewrite Hv. reflexivity.
  - cbn [forallb snd] in Hps. apply andb_prop in Hps as [Hv' Hps].
    destruct (String.eqb k k'); cbn [forallb snd].
    + rewrite Hv, Hps. reflexivity.
    + rewrite Hv', (IH Hps). reflexivity.
Qed.

Lemma object_of_plain ms :
  forallb (fun p => plain (snd p)) ms = true -> plain (object_of ms) = true.
Proof.
  unfold object_of. cbn [plain].
  assert (H : forall acc, forallb (fun p => plain (snd p)) acc = true ->
                          forallb (fun p => plain (snd p)) ms = true ->
                          forallb (fun p => plain (snd p))
                            (fold_left (fun ps m => set_prop (fst m) (snd m) ps) ms acc) = true).
  { induction ms as [| [k v] ms IH]; intros acc Hacc Hms; [exact Hacc |].
    cbn [forallb snd] in Hms. apply andb_prop in Hms as [Hv Hms].
    cbn [fold_left fst snd]. apply IH; [apply set_prop_plain; assumption | exact Hms]. }
  apply H. reflexivity.
Qed.

(** What the parser reads is plain data. *)
Lemma parse_value_plain fuel :
  (forall s v rest, parse_value fuel s = Some (v, rest) -> plain v = true)
  /\ (forall s xs rest, parse_elements fuel s = Some (xs, rest) -> forallb plain xs = true)
  /\ (forall s ms rest, parse_members fuel s = Some (ms, rest) ->
        forallb (fun p => plain (snd p)) ms = true).
Proof.
  induction fuel as [| f (IHv & IHe & IHm)]; [repeat split; intros; discriminate |].
  repeat split.
  - intros s v rest H. cbn [parse_value] in H. unfold parse_number, parse_keyword in H.
    repeat case_match; simplify_eq; try reflexivity.
    + cbn [plain]. eapply IHe; eassumption.
    + apply object_of_plain. eapply IHm; eassumption.
  - intros s xs rest H. cbn [parse_elements] in H.
    repeat case_match; simplify_eq; cbn [forallb].
    + erewrite IHv, IHe by eassumption. reflexivity.
    + erewrite IHv by eassumption. reflexivity.
  - intros s ms rest H. cbn [parse_members] in H.
    repeat case_match; simplify_eq; cbn [forallb snd].
    + erewrite IHv, IHm by eassumption. reflexivity.
    + erewrite IHv by eassumption. reflexivity.
Qed.

Lemma parse_plain text v : parse text = Return v -> plain v = true.
Proof.
  unfold parse. intros H. repeat case_match; simplify_eq.
  eapply (proj1 (parse_value_plain _)); eassumption.
Qed.

End Plain.

Lemma prefix_rest p k : String.prefix p k = true -> exists rest, k = p +:+ rest.
Proof.
  revert k. induction p as [| a p IH]; intros k H; [exists k; reflexivity |].
  destruct k as [| b k]; [discriminate |]. cbn [String.prefix] in H.
  destruct (ascii_dec a b) as [-> |]; [| discriminate].
  destruct (IH k H) as (rest & ->). exists rest. reflexivity.
Qed.

(** The records a decoded range holds are the decoded values of the
    range, key by key. *)
Lemma parse_all_spec l ps :
  parse_all l = Return ps ->
  forall k v, (k, v) ∈ ps <-> exists kv, (k, kv) ∈ l /\ Json.parse (value kv) = Return v.
Proof.
  revert ps. induction l as [| [k0 kv0] l IH]; intros ps H k v; cbn [parse_all] in H.
  - injection H as <-. split; [intros Hin; inversion Hin | intros (kv & Hin & _); inversion Hin].
  - destruct (Json.parse (value kv0)) as [v0 |] eqn:Hp; [| discriminate].
    destruct (parse_all l) as [ps' |]; [| discriminate]. injection H as <-.
    rewrite elem_of_cons, (IH ps' eq_refl). split.
    + intros [Heq | (kv & Hin & Hv)].
      * injection Heq as -> ->. exists kv0. split; [left | exact Hp].
      * exists kv. split; [right; exact Hin | exact Hv].
    + intros (kv & Hin & Hv). apply elem_of_cons in Hin as [Heq | Hin].
      * injection Heq as -> ->. left. congruence.
      * right. eauto.
Qed.

Lemma plain_default_null v : plain v = true -> default_null v = v.
Proof. destruct v; try discriminate; reflexivity. Qed.

(** ** Runs, continued *)

Section MoreRuns.

Import Etcd3Store Fixtures.

Lemma prefix_key_false this sid k :
  String.prefix (key this EmptyString) k = false -> String.prefix (key this sid) k = false.
Proof.
  intros H. destruct (String.prefix (key this sid) k) eqn:Hk; [| reflexivity].
  rewrite (prefix_trans _ _ _ (prefix_key this sid) Hk) in H. discriminate.
Qed.

(** A resolved TTL is never above the cap. *)
Lemma getTTL_capped call this sess sid seconds :
  getTTL call this sess sid = Return seconds -> Num.gt seconds maxTTL = false.
Proof.
  unfold getTTL. destruct (getRawTTL call this sess sid) as [raw |]; [| discriminate].
  intros [= <-]. destruct (Num.gt raw maxTTL) eqn:Hgt; [vm_compute; reflexivity | exact Hgt].
Qed.

(** The client a [set] leaves when its put is fulfilled. *)
Lemma set_fulfilled call this sid sess c v :
  In (Settled (Fulfilled v)) (trace (set call this sid sess (start c)).2) ->
  exists text seconds,
    Json.stringify sess = Some text
    /\ getTTL call this sess sid = Return seconds
    /\ client (set call this sid sess (start c)).2
       = with_kvs c (<[key this sid := {| value := text; lease_ttl := seconds |}]> (kvs c)).
Proof.
  rewrite set_run. intros H.
  destruct (getTTL call this sess sid) as [seconds |] eqn:Httl; [| cbn in H; contradiction].
  cbn zeta in *. cases; try (intuition discriminate).
  eexists _, _. repeat split; eauto.
Qed.

(** The first release resolved the TTL as the raw TTL is resolved now,
    and built its keys the same way. *)
Lemma legacy_getTTL_raw call this sess sid :
  Legacy.getTTL call this sess sid = getRawTTL call this sess sid.
Proof. reflexivity. Qed.

Lemma legacy_key this sid : Legacy.key this sid = key this sid.
Proof. reflexivity. Qed.

Lemma getTTL_throws call this sess sid e :
  getTTL call this sess sid = Throw e <-> Legacy.getTTL call this sess sid = Throw e.
Proof.
  rewrite legacy_getTTL_raw. unfold getTTL.
  destruct (getRawTTL call this sess sid); split; congruence.
Qed.

(** The ways a [set] of the first release can go. *)
Lemma legacy_set_run call this sid sess c :
  Legacy.set call this sid sess (start c) =
  match Legacy.getTTL call this sess sid with
  | Throw e => (Return tt, {| client := c; trace := [Callback e JUndefined] |})
  | Return seconds =>
      let l := {| ttl_of := seconds |} in
      let put := CPut l (key this sid) (Json.stringify sess) in
      match throws c (CLease seconds) with
      | Some e =>
          (Return tt,
           {| client := c; trace := [Called (CLease seconds); Threw e; Callback e JUndefined] |})
      | None =>
          match throws c put with
          | Some e =>
              (Return tt,
               {| client := c;
                  trace := [Called (CLease seconds); Called put; Threw e; Callback e JUndefined] |})
          | None =>
              match rejects c put with
              | Some e =>
                  (Return tt,
                   {| client := c;
                      trace := [Called (CLease seconds); Called put; Settled (Rejected e);
                                Callback e JUndefined] |})
              | None =>
                  match Json.stringify sess with
                  | Some text =>
                      (Return tt,
                       {| client :=
                            with_kvs c
                              (<[key this sid := {| value := text; lease_ttl := seconds |}]>
                                 (kvs c));
                          trace := [Called (CLease seconds); Called put;
                                    Settled (Fulfilled JUndefined); Callback JNull JUndefined] |})
                  | None =>
                      let e := TypeError "The first argument must be of type string or Buffer" in
                      (Return tt,
                       {| client := c;
                          trace := [Called (CLease seconds); Called put; Threw e;
                                    Callback e JUndefined] |})
                  end
              end
          end
      end
  end.
Proof.
  unfold_legacy. rewrite legacy_key.
  destruct (Legacy.getTTL call this sess sid) as [seconds | e]; [| reflexivity].
  cbn. destruct (throws c (CLease seconds)); [reflexivity |].
  cbn. destruct (throws c _); [reflexivity |].
  cbn. destruct (rejects c _); [reflexivity |].
  cbn. destruct (Json.stringify sess); reflexivity.
Qed.

End MoreRuns.

(** ** What the caller sees of an operation *)

Section Outcomes.

Import Etcd3Store Fixtures.

(** X1. Whether the client throws, rejects or answers, an operation
    that returns has called the callback exactly once and left no
    rejection unhandled.  The only
    operations that can throw are [set] and [touch], and only with the
    error of TTL resolution: then nothing was asked of the client and the
    callback was not called. *)
Theorem every_operation_calls_back_once call this op c :
  match (perform call this op (start c)).1 with
  | Return _ =>
      (exists err value,
         List.filter is_callback (trace (perform call this op (start c)).2)
         = [Callback err value])
      /\ List.filter is_unhandled (trace (perform call this op (start c)).2) = []
  | Throw e =>
      perform call this op (start c) = (Throw e, start c)
      /\ exists sid sess,
           (op = OpSet sid sess \/ op = OpTouch sid sess)
           /\ getTTL call this sess sid = Throw e
  end.
Proof.
  run_of op.
  all: try (destruct (bool_decide _); [cbn; eauto | rewrite set_run]).
  all: cbn zeta; repeat case_match; cbn; simplify_eq; eauto 10.
  all: cbn in *; simplify_eq; eauto 10.
Qed.

(** X2. When a call of the client throws, the operation returns
    normally, the store is as it was, and the callback is called once
    with the thrown value: by [set], [touch] and [destroy] as
    [callback(err)], by the other operations through [callbackWithLog],
    that is with a null payload (and a null error for a thrown
    [undefined]). *)
Theorem client_throw_reaches_callback call this op c e :
  In (Threw e) (trace (perform call this op (start c)).2) ->
  (perform call this op (start c)).1 = Return tt
  /\ client (perform call this op (start c)).2 = c
  /\ List.filter is_callback (trace (perform call this op (start c)).2) = [caught op e].
Proof.
  run_of op; intros H.
  all: try (destruct (bool_decide _); [cbn in H; intuition discriminate | rewrite set_run in *]).
  all: crush_trace.
Qed.

Lemma client_throw_reaches_callback_witness :
  List.filter is_callback
    (trace (perform ttlFunc (new None) (OpGet "test-sid")
              (start (blowing_up (JErr "Error" EmptyString) ∅))).2)
  = [Callback (JErr "Error" EmptyString) JNull]
  /\ List.filter is_callback
       (trace (perform ttlFunc (new None) (OpDestroy "test-sid")
                 (start (blowing_up (JErr "Error" EmptyString) ∅))).2)
     = [Callback (JErr "Error" EmptyString) JUndefined].
Proof.
  split.
  - apply (proj2 (proj2 (client_throw_reaches_callback ttlFunc (new None) (OpGet "test-sid")
                    (blowing_up (JErr "Error" EmptyString) ∅) (JErr "Error" EmptyString)
                    ltac:(vm_compute; auto)))).
  - apply (proj2 (proj2 (client_throw_reaches_callback ttlFunc (new None) (OpDestroy "test-sid")
                    (blowing_up (JErr "Error" EmptyString) ∅) (JErr "Error" EmptyString)
                    ltac:(vm_compute; auto)))).
Defined.

(** X3. When the request of an operation is fulfilled, the callback is
    called once, with a null error and a payload that is never
    [undefined]: the value read for [get], an array for [all], a number
    for [length], and [null] for the operations that write. *)
Theorem fulfilled_request_reports_success call this op c v :
  In (Settled (Fulfilled v)) (trace (perform call this op (start c)).2) ->
  exists payload,
    List.filter is_callback (trace (perform call this op (start c)).2)
    = [Callback JNull payload]
    /\ payload <> JUndefined
    /\ match op with
       | OpGet _ => payload = default_null v
       | OpAll => exists xs, payload = JArr xs
       | OpLength => typeof payload = "number"
       | _ => payload = JNull
       end.
Proof.
  run_of op; intros H.
  all: try (destruct (bool_decide _); [cbn in H; intuition discriminate | rewrite set_run in *]).
  all: cbn zeta in *; cases.
  all: try (intuition discriminate).
  all: eexists; split; [reflexivity |]; split; eauto; try discriminate.
  all: try (destruct H as [H | [H | [H | []]]]; simplify_eq).
  all: try match goal with |- default_null ?a <> _ => destruct a; discriminate end.
  all: reflexivity.
Qed.

Lemma fulfilled_request_reports_success_witness :
  exists payload,
    List.filter is_callback
      (trace (perform ttlFunc (new None) OpLength (start (healthy two_sessions))).2)
    = [Callback JNull payload]
    /\ payload <> JUndefined /\ typeof payload = "number".
Proof.
  apply (fulfilled_request_reports_success ttlFunc (new None) OpLength (healthy two_sessions)
           (JNum (Num.of_Z 2))).
  vm_compute. auto.
Defined.

(** X4. [get], [all] and [length] make one request each, a read of the
    key or of the namespace, and leave the client and its store as they
    were, whatever the outcome. *)
Theorem reads_never_write this c :
  (forall sid,
     calls (trace (get this sid (start c)).2) = [CGet (key this sid)]
     /\ client (get this sid (start c)).2 = c)
  /\ (calls (trace (all this (start c)).2) = [CGetAllJson (key this EmptyString)]
      /\ client (all this (start c)).2 = c)
  /\ (calls (trace (length this (start c)).2) = [CGetAllCount (key this EmptyString)]
      /\ client (length this (start c)).2 = c).
Proof.
  split; [intros sid | split].
  all: rewrite ?get_run, ?all_run, ?length_run; unfold single, caught_logged.
  all: cases.
  all: rewrite ?with_kvs_same; auto.
Qed.

(** X5. [get] of an id that has no key calls back with a null record and
    no error, and that is what follows a [destroy] of the id that went
    through. *)
Theorem get_of_missing_id_is_null this sid c :
  throws c (CGet (key this sid)) = None -> rejects c (CGet (key this sid)) = None ->
  (kvs c !! key this sid = None ->
   get this sid (start c)
   = (Return tt,
      {| client := c;
         trace := [Called (CGet (key this sid)); Settled (Fulfilled JNull);
                   Callback JNull JNull] |}))
  /\ (forall v, In (Settled (Fulfilled v)) (trace (destroy this sid (start c)).2) ->
      List.filter is_callback
        (trace (get this sid (start (client (destroy this sid (start c)).2))).2)
      = [Callback JNull JNull]).
Proof.
  intros Ht Hr. split.
  - intros Hk. rewrite get_run. unfold single. rewrite Ht, Hr. cbn [respond]. rewrite Hk.
    rewrite with_kvs_same. reflexivity.
  - intros v. rewrite destroy_run, get_run. unfold single. intros H.
    cases; try (intuition discriminate).
    all: rewrite lookup_out_of_prefix, prefix_refl in *; simplify_eq.
Qed.

Lemma get_of_missing_id_is_null_witness :
  get (new None) "non existing sid" (start (healthy two_sessions))
  = (Return tt,
     {| client := healthy two_sessions;
        trace := [Called (CGet "sess/non existing sid"); Settled (Fulfilled JNull);
                  Callback JNull JNull] |}).
Proof.
  apply (proj1 (get_of_missing_id_is_null (new None) "non existing sid" (healthy two_sessions)
                  eq_refl eq_refl)).
  reflexivity.
Defined.

(** X6. What [get] does depends on the store through the one key of
    the id only: two stores that agree on that key give the same run. *)
Theorem get_depends_on_its_key_only this sid c m' :
  m' !! key this sid = kvs c !! key this sid ->
  (get this sid (start (with_kvs c m'))).1 = (get this sid (start c)).1
  /\ trace (get this sid (start (with_kvs c m'))).2 = trace (get this sid (start c)).2.
Proof.
  intros H. rewrite !get_run. unfold single. cbn [with_kvs throws rejects kvs respond].
  rewrite H. repeat case_match; simplify_eq; auto.
Qed.

Lemma get_depends_on_its_key_only_witness :
  trace (get (new None) "abc" (start (with_kvs (healthy two_sessions)
                                        (delete "sess/abcd" two_sessions)))).2
  = trace (get (new None) "abc" (start (healthy two_sessions))).2.
Proof.
  apply (proj2 (get_depends_on_its_key_only (new None) "abc" (healthy two_sessions)
                  (delete "sess/abcd" two_sessions)
                  ltac:(apply lookup_delete_ne; discriminate))).
Defined.

(** X7. Whatever the store holds, and whether the client throws,
    rejects or answers, the payload that [get], [all] and [length] hand
    the callback is plain data:
    never [undefined], a function, a [Date] or an [Error], nor an array
    or object holding one. *)
Theorem reads_hand_over_plain_data this c err value :
  (forall sid, In (Callback err value) (trace (get this sid (start c)).2) -> plain value = true)
  /\ (In (Callback err value) (trace (all this (start c)).2) -> plain value = true)
  /\ (In (Callback err value) (trace (length this (start c)).2) -> plain value = true).
Proof.
  split; [intros sid | split].
  - rewrite get_run. unfold single, caught_logged. intros H.
    cases; intuition (simplify_eq; try reflexivity).
    all: match goal with
         | H : settle (Json.parse ?t) = Fulfilled ?v |- _ =>
             destruct (Json.parse t) as [w |] eqn:Hp; cbn in H; simplify_eq;
             rewrite (plain_default_null _ (parse_plain _ _ Hp)); apply (parse_plain _ _ Hp)
         end.
  - rewrite all_run. unfold single, caught_logged. intros H.
    cases; intuition (simplify_eq; try reflexivity).
    match goal with H : parse_all ?l = Return ?ps |- _ => pose proof (parse_all_spec _ _ H) as Hs end.
    cbn [plain]. apply forallb_forall. intros v Hv. apply in_map_iff in Hv as ([k v'] & <- & Hin).
    apply list_elem_of_In, Hs in Hin as (kv & _ & Hp). exact (parse_plain _ _ Hp).
  - rewrite length_run. unfold single, caught_logged. intros H.
    cases; intuition (simplify_eq; try reflexivity).
Qed.

End Outcomes.

(** ** What the operations do to the store *)

Section Effects.

Import Etcd3Store Fixtures.

(** X8. No operation changes a key outside the namespace of its adapter
    (the keys that do not begin with [key()]), whether the client throws,
    rejects or answers. *)
Theorem operations_stay_in_namespace call this op c k :
  String.prefix (key this EmptyString) k = false ->
  kvs (client (perform call this op (start c)).2) !! k = kvs c !! k.
Proof.
  intros Hk.
  assert (Hne : forall sid, key this sid <> k).
  { intros sid <-. rewrite prefix_key in Hk. discriminate. }
  run_of op.
  all: try (destruct (bool_decide _); [reflexivity | rewrite set_run]).
  all: cbn zeta; cases; try reflexivity.
  all: rewrite ?lookup_insert_ne by apply Hne; try reflexivity.
  all: rewrite lookup_out_of_prefix, ?Hk, ?(prefix_key_false _ _ _ Hk); reflexivity.
Qed.

Lemma operations_stay_in_namespace_witness :
  kvs (client (perform ttlFunc (with_prefix "a") OpClear (start (healthy two_sessions))).2)
    !! "sess/abc" = Some (stored sessionData 100).
Proof.
  rewrite (operations_stay_in_namespace ttlFunc (with_prefix "a") OpClear (healthy two_sessions)
             "sess/abc" eq_refl).
  reflexivity.
Defined.

(** X9. A [set] whose put is fulfilled writes one key: the text of the
    record, under a lease of the resolved seconds, which are never above
    the cap; every other key is as before.  A [set] whose put is not
    fulfilled leaves the store as it was. *)
Theorem set_writes_one_key call this sid sess c :
  (forall v, In (Settled (Fulfilled v)) (trace (set call this sid sess (start c)).2) ->
     exists text seconds,
       Json.stringify sess = Some text
       /\ getTTL call this sess sid = Return seconds
       /\ Num.gt seconds maxTTL = false
       /\ kvs (client (set call this sid sess (start c)).2)
          = <[key this sid := {| value := text; lease_ttl := seconds |}]> (kvs c))
  /\ ((forall v, ~ In (Settled (Fulfilled v)) (trace (set call this sid sess (start c)).2)) ->
      client (set call this sid sess (start c)).2 = c).
Proof.
  split.
  - intros v H. destruct (set_fulfilled _ _ _ _ _ _ H) as (text & seconds & Ht & Httl & ->).
    exists text, seconds. repeat split; auto. eapply getTTL_capped, Httl.
  - rewrite set_run. intros H. cbn zeta in *. cases; try reflexivity.
    exfalso. apply (H JUndefined). auto.
Qed.

Lemma set_writes_one_key_witness :
  exists text seconds,
    Num.gt seconds maxTTL = false
    /\ kvs (client (set ttlFunc (with_ttl (JNum (Num.of_Z 7000000))) "abc" sessionData
                      (start (healthy two_sessions))).2)
       = <["sess/abc" := {| value := text; lease_ttl := seconds |}]> two_sessions.
Proof.
  destruct (proj1 (set_writes_one_key ttlFunc (with_ttl (JNum (Num.of_Z 7000000))) "abc"
                     sessionData (healthy two_sessions)) JUndefined ltac:(vm_compute; auto))
    as (text & seconds & _ & _ & Hcap & Hkvs).
  exists text, seconds. split; [exact Hcap | exact Hkvs].
Defined.

(** X10. [set] is an upsert: a later [set] of the same id replaces the
    record and its lease, as if the earlier one had not happened, and
    [get] then returns the later record. *)
Theorem set_replaces_the_record call this sid old new m :
  Json.json_safe new = true ->
  In (Settled (Fulfilled JUndefined))
     (trace (set call this sid new
               (start (client (set call this sid old (start (healthy m))).2))).2) ->
  kvs (client (set call this sid new
                 (start (client (set call this sid old (start (healthy m))).2))).2)
  = kvs (client (set call this sid new (start (healthy m))).2)
  /\ List.filter is_callback
       (trace (get this sid
                 (start (client (set call this sid new
                                   (start (client (set call this sid old
                                                     (start (healthy m))).2))).2))).2)
     = [Callback JNull new].
Proof.
  intros Hsafe Hnew.
  destruct (parse_stringify new Hsafe) as (text & Htext & Hparse).
  assert (Hc1 : exists m1, client (set call this sid old (start (healthy m))).2 = healthy m1
                           /\ forall kv, <[key this sid := kv]> m1 = <[key this sid := kv]> m).
  { rewrite set_run. cbn zeta. cases; eauto.
    eexists. split; [reflexivity |]. intros kv. apply insert_insert_eq. }
  destruct Hc1 as (m1 & Hc1 & Hins). rewrite Hc1 in *.
  destruct (set_fulfilled _ _ _ _ _ _ Hnew) as (text' & seconds & Ht' & Httl & Hclient).
  rewrite Htext in Ht'. injection Ht' as <-.
  assert (Hsame : client (set call this sid new (start (healthy m))).2
                  = client (set call this sid new (start (healthy m1))).2).
  { rewrite Hclient. rewrite set_run, Httl, Htext. cbn. rewrite Hins. reflexivity. }
  split; [rewrite Hsame; reflexivity |].
  rewrite Hclient, get_run. unfold single. cbn [with_kvs healthy throws rejects kvs respond].
  rewrite lookup_insert_eq. cbn [value]. rewrite Hparse. cbn [settle].
  destruct new; try discriminate; reflexivity.
Qed.

Lemma set_replaces_the_record_witness :
  List.filter is_callback
    (trace (get (new None) "abc"
              (start (client (set ttlFunc (new None) "abc" sessionData
                                (start (client (set ttlFunc (new None) "abc" datedSession
                                                  (start (healthy ∅))).2))).2))).2)
  = [Callback JNull sessionData].
Proof.
  apply (proj2 (set_replaces_the_record ttlFunc (new None) "abc" datedSession sessionData ∅
                  ltac:(vm_compute; reflexivity) ltac:(vm_compute; auto))).
Defined.

(** X11. For any record whose image is safe to read back, a [set] that
    went through followed by a [get] of the same id hands the callback
    the image of the record: the record with every [Date] as its ISO
    text, every number that is not finite as [null], negative zero as
    zero, [undefined] and functions as [null] in arrays and left out of
    objects. *)
Theorem set_then_get_returns_the_image call this sid sess c :
  Json.json_safe (image sess) = true ->
  In (Settled (Fulfilled JUndefined)) (trace (set call this sid sess (start c)).2) ->
  throws c (CGet (key this sid)) = None -> rejects c (CGet (key this sid)) = None ->
  get this sid (start (client (set call this sid sess (start c)).2))
  = (Return tt,
     {| client := client (set call this sid sess (start c)).2;
        trace := [Called (CGet (key this sid)); Settled (Fulfilled (image sess));
                  Callback JNull (image sess)] |}).
Proof.
  intros Hsafe Hput Ht Hr.
  destruct (parse_stringify (image sess) Hsafe) as (text & Htext & Hparse).
  assert (Hsame : Json.stringify sess = Some text).
  { rewrite set_run in Hput. cbn zeta in Hput.
    unfold Json.stringify in *. rewrite image_serializable in Htext.
    destruct (Json.serializable sess).
    - rewrite ser_image. exact Htext.
    - cases; intuition discriminate. }
  rewrite set_run in *. rewrite Hsame in *. cbn zeta in *.
  repeat case_match; cbn [snd trace client] in *;
    try (cbn in Hput; intuition discriminate).
  rewrite get_run. unfold single. cbn [with_kvs throws rejects kvs]. rewrite Ht, Hr.
  cbn [respond]. rewrite lookup_insert_eq. cbn [value]. rewrite Hparse. cbn [settle].
  pose proof (image_serializable sess) as Hs.
  destruct (image sess); try discriminate; reflexivity.
Qed.

Lemma set_then_get_returns_the_image_witness :
  List.filter is_callback
    (trace (get (new None) "abc"
              (start (client (set ttlFunc (new None) "abc" datedSession
                                (start (healthy ∅))).2))).2)
  = [Callback JNull
       (JObj [("cookie",
               JObj [("originalMaxAge", JNum (Num.of_Z 60000)); ("path", JStr "/");
                     ("maxAge", JNum (Num.of_Z 60000));
                     ("expires", JStr "2026-11-02T19:10:00.000Z");
                     ("httpOnly", JBool true)])])].
Proof.
  rewrite (set_then_get_returns_the_image ttlFunc (new None) "abc" datedSession (healthy ∅)
             ltac:(vm_compute; reflexivity) ltac:(vm_compute; auto) eq_refl eq_refl).
  reflexivity.
Defined.

(** X12. What a fulfilled [destroy] leaves of the sessions of its
    adapter: every session whose id begins with the destroyed id is gone,
    the others are as before. *)
Theorem destroy_removes_ids_that_extend this sid c :
  throws c (CDeletePrefix (key this sid)) = None ->
  rejects c (CDeletePrefix (key this sid)) = None ->
  forall sid',
    kvs (client (destroy this sid (start c)).2) !! key this sid'
    = if String.prefix sid sid' then None else kvs c !! key this sid'.
Proof.
  intros Ht Hr sid'. rewrite destroy_kvs by assumption. cbn [snd client with_kvs kvs].
  rewrite lookup_out_of_prefix, (key_split this sid), (key_split this sid'), prefix_append_cancel.
  reflexivity.
Qed.

Lemma destroy_removes_ids_that_extend_witness :
  kvs (client (destroy (new None) "abc" (start (healthy two_sessions))).2) !! "sess/abcd" = None.
Proof.
  exact (destroy_removes_ids_that_extend (new None) "abc" (healthy two_sessions)
           eq_refl eq_refl "abcd").
Defined.

(** X13. When no stored key extends the key of the session, a fulfilled
    [destroy] deletes that one key and nothing else. *)
Theorem destroy_deletes_one_key_without_extensions this sid c :
  throws c (CDeletePrefix (key this sid)) = None ->
  rejects c (CDeletePrefix (key this sid)) = None ->
  (forall k, is_Some (kvs c !! k) -> String.prefix (key this sid) k = true -> k = key this sid) ->
  kvs (client (destroy this sid (start c)).2) = delete (key this sid) (kvs c).
Proof.
  intros Ht Hr Hone. rewrite destroy_kvs by assumption. cbn [snd client with_kvs kvs].
  apply map_eq. intros k. rewrite lookup_out_of_prefix.
  destruct (decide (k = key this sid)) as [-> | Hne].
  - rewrite prefix_refl, lookup_delete_eq. reflexivity.
  - rewrite lookup_delete_ne by congruence.
    destruct (String.prefix (key this sid) k) eqn:Hp; [| reflexivity].
    destruct (kvs c !! k) eqn:Hk; [| reflexivity].
    exfalso. apply Hne, Hone; [rewrite Hk; eauto | exact Hp].
Qed.

Lemma destroy_deletes_one_key_without_extensions_witness :
  kvs (client (destroy (new None) "abcd" (start (healthy two_sessions))).2)
  = delete "sess/abcd" two_sessions.
Proof.
  apply (destroy_deletes_one_key_without_extensions (new None) "abcd" (healthy two_sessions)
           eq_refl eq_refl).
  intros k [kv Hk] Hp. cbn [healthy kvs] in Hk. unfold two_sessions in Hk.
  destruct (decide (k = "sess/abc")) as [-> | Hn1]; [discriminate |].
  destruct (decide (k = "sess/abcd")) as [-> | Hn2]; [reflexivity |].
  rewrite !lookup_insert_ne, lookup_empty in Hk by congruence. discriminate.
Defined.

(** X14. Destroying the empty session id is clearing: the request is the
    same and so is the store it leaves; unless the client throws, the two
    runs are the same. *)
Theorem destroy_of_empty_id_clears this c :
  calls (trace (destroy this EmptyString (start c)).2) = calls (trace (clear this (start c)).2)
  /\ client (destroy this EmptyString (start c)).2 = client (clear this (start c)).2
  /\ (throws c (CDeletePrefix (key this EmptyString)) = None ->
      destroy this EmptyString (start c) = clear this (start c)).
Proof.
  rewrite destroy_run, clear_run. unfold single, caught_plain, caught_logged.
  repeat split; cases; try reflexivity; intros; simplify_eq.
Qed.

(** X15. After a [clear] that went through, the adapter has no session
    left: [length] reports 0, [all] an empty array, and [get] a null
    record for every id; clearing again changes nothing. *)
Theorem clear_empties_the_namespace this m :
  let c' := client (clear this (start (healthy m))).2 in
  List.filter is_callback (trace (length this (start c')).2)
  = [Callback JNull (JNum (Num.of_Z 0))]
  /\ List.filter is_callback (trace (all this (start c')).2) = [Callback JNull (JArr [])]
  /\ (forall sid,
        List.filter is_callback (trace (get this sid (start c')).2) = [Callback JNull JNull])
  /\ client (clear this (start c')).2 = c'.
Proof.
  cbn zeta. rewrite clear_run. unfold single. cbn [healthy throws rejects kvs respond snd client].
  assert (Hr : range (key this EmptyString) (out_of_prefix (key this EmptyString) m) = []).
  { unfold range.
    replace (in_prefix (key this EmptyString) (out_of_prefix (key this EmptyString) m))
      with (∅ : gmap string KeyValue); [reflexivity |].
    symmetry. apply map_eq. intros k.
    rewrite lookup_in_prefix, lookup_out_of_prefix, lookup_empty.
    destruct (String.prefix _ k); reflexivity. }
  repeat split.
  - rewrite length_run. unfold single. cbn [with_kvs throws rejects kvs respond]. rewrite Hr.
    reflexivity.
  - rewrite all_run. unfold single. cbn [with_kvs throws rejects kvs respond]. rewrite Hr.
    reflexivity.
  - intros sid. rewrite get_run. unfold single. cbn [with_kvs throws rejects kvs respond].
    rewrite lookup_out_of_prefix, prefix_key. reflexivity.
  - rewrite clear_run. unfold single, with_kvs, healthy.
    cbn [throws rejects kvs respond snd client].
    f_equal. apply map_eq. intros k. rewrite !lookup_out_of_prefix.
    destruct (String.prefix _ k); reflexivity.
Qed.

(** X16. When the namespace of a second adapter lies inside that of the
    first ([key()] of the first begins [key()] of the second), a [clear]
    of the first that went through leaves no session of the second, and
    a [length] of the first counts the sessions of the second. *)
Theorem clear_reaches_nested_namespaces thisP thisQ m :
  String.prefix (key thisP EmptyString) (key thisQ EmptyString) = true ->
  (forall sid, kvs (client (clear thisP (start (healthy m))).2) !! key thisQ sid = None)
  /\ (exists n,
        List.filter is_callback (trace (length thisP (start (healthy m))).2)
        = [Callback JNull (JNum (Num.of_Z (Z.of_nat n)))]
        /\ (size (in_prefix (key thisQ EmptyString) m) <= n)%nat).
Proof.
  intros Hpq. split.
  - intros sid. rewrite clear_run. unfold single.
    cbn [healthy throws rejects kvs respond snd client with_kvs].
    rewrite lookup_out_of_prefix, (prefix_trans _ _ _ Hpq (prefix_key thisQ sid)). reflexivity.
  - exists (size (in_prefix (key thisP EmptyString) m)).
    rewrite length_run. unfold single. cbn [healthy throws rejects kvs respond].
    rewrite length_range. split; [reflexivity |].
    apply map_subseteq_size, map_subseteq_spec. intros k kv.
    rewrite !lookup_in_prefix.
    destruct (String.prefix (key thisQ EmptyString) k) eqn:Hq; [| discriminate].
    rewrite (prefix_trans _ _ _ Hpq Hq). auto.
Qed.

Lemma clear_reaches_nested_namespaces_witness :
  kvs (client (clear (with_prefix "a") (start (healthy nested_sessions))).2)
    !! key (with_prefix "a/b") "x" = None.
Proof.
  apply (proj1 (clear_reaches_nested_namespaces (with_prefix "a") (with_prefix "a/b")
                  nested_sessions eq_refl)).
Defined.

(** X17. The only puts are those of [set] and [touch], and every one of them
    names the key of the session, carries the text of the record, and is
    made on a lease of the resolved TTL, which is never above the cap. *)
Theorem every_put_is_leased call this op c l k text :
  In (Called (CPut l k text)) (trace (perform call this op (start c)).2) ->
  (exists sid sess,
     (op = OpSet sid sess \/ op = OpTouch sid sess)
     /\ k = key this sid
     /\ text = Json.stringify sess
     /\ getTTL call this sess sid = Return (ttl_of l))
  /\ Num.gt (ttl_of l) maxTTL = false
  /\ In (Called (CLease (ttl_of l))) (trace (perform call this op (start c)).2).
Proof.
  intros H.
  assert (Hset : forall sid sess,
            In (Called (CPut l k text)) (trace (set call this sid sess (start c)).2) ->
            k = key this sid /\ text = Json.stringify sess
            /\ getTTL call this sess sid = Return (ttl_of l)
            /\ In (Called (CLease (ttl_of l))) (trace (set call this sid sess (start c)).2)).
  { intros sid sess. rewrite set_run.
    destruct (getTTL call this sess sid) as [seconds |] eqn:Httl; [| intros []].
    cbn zeta. intros Hin. cases; intuition (simplify_eq; auto). }
  assert (Hgoal : forall sid sess,
            (op = OpSet sid sess \/ op = OpTouch sid sess) ->
            In (Called (CPut l k text)) (trace (set call this sid sess (start c)).2) ->
            In (Called (CLease (ttl_of l))) (trace (set call this sid sess (start c)).2) ->
            (exists sid sess,
               (op = OpSet sid sess \/ op = OpTouch sid sess)
               /\ k = key this sid
               /\ text = Json.stringify sess
               /\ getTTL call this sess sid = Return (ttl_of l))
            /\ Num.gt (ttl_of l) maxTTL = false).
  { intros sid sess Hop Hin _. destruct (Hset _ _ Hin) as (Hk & Ht & Httl & _).
    split; [eauto 10 | eapply getTTL_capped, Httl]. }
  destruct op as [sid | sid sess | sid sess | | | sid |]; cbn [perform] in *.
  - exfalso. rewrite get_run in H. unfold single, caught_logged in H. cases; intuition discriminate.
  - destruct (Hset _ _ H) as (_ & _ & _ & Hl). destruct (Hgoal sid sess) as [H1 H2]; auto.
  - rewrite touch_run in *. case_bool_decide; [cbn in H; intuition discriminate |].
    destruct (Hset _ _ H) as (_ & _ & _ & Hl). destruct (Hgoal sid sess) as [H1 H2]; auto.
  - exfalso. rewrite all_run in H. unfold single, caught_logged in H. cases; intuition discriminate.
  - exfalso. rewrite length_run in H. unfold single, caught_logged in H.
    cases; intuition discriminate.
  - exfalso. rewrite destroy_run in H. unfold single, caught_plain in H.
    cases; intuition discriminate.
  - exfalso. rewrite clear_run in H. unfold single, caught_logged in H.
    cases; intuition discriminate.
Qed.

Lemma every_put_is_leased_witness :
  Num.gt (Num.of_Z 100) maxTTL = false
  /\ In (Called (CLease (Num.of_Z 100)))
        (trace (set ttlFunc (with_ttl (JNum (Num.of_Z 100))) "abc" sessionData
                  (start (healthy ∅))).2).
Proof.
  apply (proj2 (every_put_is_leased ttlFunc (with_ttl (JNum (Num.of_Z 100)))
                         (OpSet "abc" sessionData) (healthy ∅)
                         {| ttl_of := Num.of_Z 100 |} "sess/abc"
                         (Json.stringify sessionData) ltac:(vm_compute; auto))).
Defined.

End Effects.

(** ** Listing and counting *)

Section Listing.

Import Etcd3Store Fixtures.

(** X18. [all] and [length] agree: when [all] hands the callback an
    array, [length] on the same store reports the length of that
    array. *)
Theorem all_and_length_agree this c xs :
  throws c (CGetAllCount (key this EmptyString)) = None ->
  rejects c (CGetAllCount (key this EmptyString)) = None ->
  In (Callback JNull (JArr xs)) (trace (all this (start c)).2) ->
  List.filter is_callback (trace (length this (start c)).2)
  = [Callback JNull (JNum (Num.of_Z (Z.of_nat (List.length xs))))].
Proof.
  intros Ht Hr. rewrite all_run, length_run. unfold single, caught_logged. rewrite Ht, Hr.
  cbn [respond]. intros H.
  destruct (throws c (CGetAllJson _)); [cbn in H; intuition discriminate |].
  destruct (rejects c (CGetAllJson _)); [cbn in H; intuition discriminate |].
  destruct (parse_all (range (key this EmptyString) (kvs c))) as [ps | e] eqn:Hps;
    [| cbn in H; intuition discriminate].
  cbn in H. destruct H as [H | [H | [H | []]]]; try discriminate.
  injection H as <-. cbn. rewrite length_map, (parse_all_length _ _ Hps). reflexivity.
Qed.

Lemma all_and_length_agree_witness :
  List.filter is_callback (trace (length (new None) (start (healthy two_sessions))).2)
  = [Callback JNull (JNum (Num.of_Z 2))].
Proof.
  apply (all_and_length_agree (new None) (healthy two_sessions) [sessionData; sessionData]
           eq_refl eq_refl).
  vm_compute. auto.
Defined.

(** X19. After a [set] that went through, [length] counts the session
    once: one more than before for a new id, as many as before for an id
    that was stored already. *)
Theorem set_counts_an_id_once call this sid sess m :
  In (Settled (Fulfilled JUndefined)) (trace (set call this sid sess (start (healthy m))).2) ->
  exists n,
    List.filter is_callback (trace (length this (start (healthy m))).2)
    = [Callback JNull (JNum (Num.of_Z (Z.of_nat n)))]
    /\ List.filter is_callback
         (trace (length this (start (client (set call this sid sess (start (healthy m))).2))).2)
       = [Callback JNull
            (JNum (Num.of_Z (Z.of_nat (match m !! key this sid with
                                       | Some _ => n
                                       | None => S n
                                       end))))].
Proof.
  intros Hset. destruct (set_fulfilled _ _ _ _ _ _ Hset) as (text & seconds & _ & _ & ->).
  exists (size (in_prefix (key this EmptyString) m)).
  rewrite !length_run. unfold single. cbn [with_kvs healthy throws rejects kvs respond].
  rewrite !length_range, size_in_prefix_insert by apply prefix_key.
  split; [reflexivity |]. destruct (m !! key this sid); reflexivity.
Qed.

Lemma set_counts_an_id_once_witness :
  exists n,
    List.filter is_callback (trace (length (new None) (start (healthy two_sessions))).2)
    = [Callback JNull (JNum (Num.of_Z (Z.of_nat n)))]
    /\ List.filter is_callback
         (trace (length (new None)
                   (start (client (set ttlFunc (new None) "abc" sessionData
                                     (start (healthy two_sessions))).2))).2)
       = [Callback JNull (JNum (Num.of_Z (Z.of_nat n)))].
Proof.
  apply (set_counts_an_id_once ttlFunc (new None) "abc" sessionData two_sessions).
  vm_compute. auto.
Defined.

(** X20. After a [set] that went through, [all] lists the record,
    provided the record is safe to read back and the other values of the
    namespace can be decoded. *)
Theorem set_then_all_lists_the_record call this sid sess m :
  Json.json_safe sess = true ->
  (forall k kv, m !! k = Some kv -> String.prefix (key this EmptyString) k = true ->
                decodes (value kv) = true) ->
  In (Settled (Fulfilled JUndefined)) (trace (set call this sid sess (start (healthy m))).2) ->
  exists xs,
    List.filter is_callback
      (trace (all this (start (client (set call this sid sess (start (healthy m))).2))).2)
    = [Callback JNull (JArr xs)]
    /\ In sess xs.
Proof.
  intros Hsafe Hdec Hset.
  destruct (parse_stringify sess Hsafe) as (text & Htext & Hparse).
  destruct (set_fulfilled _ _ _ _ _ _ Hset) as (text' & seconds & Ht' & _ & ->).
  rewrite Htext in Ht'. injection Ht' as <-.
  set (kv := {| value := text; lease_ttl := seconds |}).
  destruct (parse_all_decodes (range (key this EmptyString) (<[key this sid := kv]> m)))
    as (ps & Hps & Hin).
  { intros k kv' Hk. apply elem_of_range in Hk as [Hk Hp].
    destruct (decide (k = key this sid)) as [-> | Hne].
    - rewrite lookup_insert_eq in Hk. injection Hk as <-. unfold decodes. cbn. rewrite Hparse.
      reflexivity.
    - rewrite lookup_insert_ne in Hk by congruence. eapply Hdec; eassumption. }
  exists (map snd ps).
  rewrite all_run. unfold single. cbn [with_kvs healthy throws rejects kvs respond]. rewrite Hps.
  split; [reflexivity |].
  apply list_elem_of_In, (list_elem_of_fmap_2 snd ps (key this sid, sess)).
  apply (Hin _ kv); [| exact Hparse].
  apply elem_of_range. split; [apply lookup_insert_eq | apply prefix_key].
Qed.

Lemma set_then_all_lists_the_record_witness :
  exists xs,
    List.filter is_callback
      (trace (all (new None)
                (start (client (set ttlFunc (new None) "abc" sessionData
                                  (start (healthy ∅))).2))).2)
    = [Callback JNull (JArr xs)]
    /\ In sessionData xs.
Proof.
  apply (set_then_all_lists_the_record ttlFunc (new None) "abc" sessionData ∅
           ltac:(vm_compute; reflexivity)).
  - intros k kv Hk. rewrite lookup_empty in Hk. discriminate.
  - vm_compute. auto.
Defined.

(** X21. On a store whose requests go through, when [all] hands the callback
    an array, its elements are the records that [get] returns for the
    stored ids of the adapter: each element is what [get] returns for
    some id that has a key, and what [get] returns for an id that has a
    key is an element. *)
Theorem all_lists_what_get_returns this m xs :
  In (Callback JNull (JArr xs)) (trace (all this (start (healthy m))).2) ->
  forall v,
    In v xs <->
    exists sid,
      is_Some (m !! key this sid)
      /\ In (Callback JNull v) (trace (get this sid (start (healthy m))).2).
Proof.
  rewrite all_run. unfold single. cbn [healthy throws rejects kvs respond]. intros H v.
  destruct (parse_all (range (key this EmptyString) m)) as [ps | e] eqn:Hps;
    [| cbn in H; intuition discriminate].
  cbn in H. destruct H as [H | [H | [H | []]]]; try discriminate. injection H as <-.
  pose proof (parse_all_spec _ _ Hps) as Hs.
  assert (Hget : forall sid kv w,
            m !! key this sid = Some kv -> Json.parse (value kv) = Return w ->
            trace (get this sid (start (healthy m))).2
            = [Called (CGet (key this sid)); Settled (Fulfilled w); Callback JNull w]).
  { intros sid kv w Hk Hp. rewrite get_run. unfold single.
    cbn [healthy throws rejects kvs respond]. rewrite Hk, Hp. cbn [settle snd trace].
    rewrite (plain_default_null _ (parse_plain _ _ Hp)). reflexivity. }
  split.
  - intros Hv. apply in_map_iff in Hv as ([k w] & Hw & Hin). cbn [snd] in Hw. subst w.
    apply list_elem_of_In, Hs in Hin as (kv & Hin & Hp).
    apply elem_of_range in Hin as [Hk Hpre].
    destruct (prefix_rest _ _ Hpre) as (sid & ->). rewrite <- key_split in Hk.
    exists sid. split; [rewrite Hk; eauto |].
    rewrite (Hget sid kv v Hk Hp). cbn. auto.
  - intros (sid & [kv Hk] & Hin).
    assert (Hr : (key this sid, kv) ∈ range (key this EmptyString) m)
      by (apply elem_of_range; split; [exact Hk | apply prefix_key]).
    destruct (Json.parse (value kv)) as [w | e] eqn:Hp.
    + rewrite (Hget sid kv w Hk Hp) in Hin. cbn in Hin.
      destruct Hin as [Hin | [Hin | [Hin | []]]]; try discriminate. injection Hin as <-.
      apply in_map_iff. exists (key this sid, w). split; [reflexivity |].
      apply list_elem_of_In, Hs. eauto.
    + exfalso. destruct (parse_all_undecodable _ _ _ Hr) as (e' & He' & _).
      { unfold decodes. rewrite Hp. reflexivity. }
      congruence.
Qed.

Lemma all_lists_what_get_returns_witness :
  In sessionData [sessionData; sessionData] <->
  exists sid,
    is_Some (two_sessions !! key (new None) sid)
    /\ In (Callback JNull sessionData)
          (trace (get (new None) sid (start (healthy two_sessions))).2).
Proof.
  apply (all_lists_what_get_returns (new None) two_sessions [sessionData; sessionData]).
  vm_compute. auto.
Defined.

End Listing.

(** ** Keys and the TTL, continued *)

Section KeysAndTTL.

Import Etcd3Store Fixtures.

(** X22. Two session ids share a key of one adapter only if they are the
    same id; and the keys of two adapters whose prefixes in effect hold
    no slash coincide only for the same prefix and the same id. *)
Theorem key_is_injective this :
  (forall sid1 sid2, key this sid1 = key this sid2 -> sid1 = sid2)
  /\ (forall other sid1 sid2,
        slash_free (effective_prefix this) = true ->
        slash_free (effective_prefix other) = true ->
        key this sid1 = key other sid2 ->
        effective_prefix this = effective_prefix other /\ sid1 = sid2).
Proof.
  split.
  - intros sid1 sid2 H. rewrite (key_split this sid1), (key_split this sid2) in H.
    apply append_cancel in H. exact H.
  - intros other sid1 sid2 Hp Hq H. rewrite !key_effective in H.
    apply (slash_free_split _ _ _ _ Hp Hq H).
Qed.

(** X23. With no [ttl] override, a record whose cookie is missing makes
    TTL resolution throw a type error, and [set] lets it out: nothing is
    asked of the store and the callback is not called.  So does [touch],
    unless it skips. *)
Theorem missing_cookie_escapes_set call this sid sess c :
  unset (ttl this) = true -> lacks_cookie sess = true ->
  exists message,
    getTTL call this sess sid = Throw (TypeError message)
    /\ set call this sid sess (start c) = (Throw (TypeError message), start c)
    /\ (skipTouch (config this) <> Some true ->
        touch call this sid sess (start c) = (Throw (TypeError message), start c)).
Proof.
  intros Hu Hc.
  assert (Httl : exists message, getTTL call this sess sid = Throw (TypeError message)).
  { unfold getTTL, getRawTTL, unset, lacks_cookie in *.
    destruct (ttl this) as [| | [] | | | | | | |]; cbn in Hu; rewrite ?andb_false_r in Hu;
      try discriminate.
    all: cbn [truthy].
    all: destruct sess as [| | | | | | | | | ps]; cbn in Hc |- *; try discriminate; eauto.
    all: match goal with
         | H : context [lookup_prop "cookie" ?ps] |- _ =>
             destruct (lookup_prop "cookie" ps) as [[] |]; cbn in H |- *; try discriminate; eauto
         end. }
  destruct Httl as (message & Httl). exists message.
  assert (Hset : set call this sid sess (start c) = (Throw (TypeError message), start c)).
  { rewrite set_run, Httl. reflexivity. }
  split; [exact Httl | split; [exact Hset |]].
  intros Hskip. rewrite touch_run. case_bool_decide; [contradiction | exact Hset].
Qed.

Lemma missing_cookie_escapes_set_witness :
  exists message,
    set ttlFunc (new None) "test-sid" (JObj [("sid", JStr "test-sid")]) (start (healthy ∅))
    = (Throw (TypeError message), start (healthy ∅)).
Proof.
  destruct (missing_cookie_escapes_set ttlFunc (new None) "test-sid"
              (JObj [("sid", JStr "test-sid")]) (healthy ∅) eq_refl eq_refl)
    as (message & _ & Hset & _).
  exists message. exact Hset.
Defined.

(** X24. An adapter as the constructor makes it has no [ttl] override:
    for any record whose cookie can be read, the TTL resolves and [set]
    returns normally. *)
Theorem constructed_adapter_sets_records_with_a_cookie call cfg sid sess c :
  lacks_cookie sess = false ->
  (exists seconds, getTTL call (new cfg) sess sid = Return seconds)
  /\ (set call (new cfg) sid sess (start c)).1 = Return tt.
Proof.
  intros Hc.
  assert (Httl : exists seconds, getTTL call (new cfg) sess sid = Return seconds).
  { unfold getTTL, getRawTTL, lacks_cookie in *. cbn [new ttl truthy].
    destruct (get_prop sess "cookie") as [cookie |]; [| discriminate].
    destruct cookie as [| | | | | | | | | cps]; try discriminate; cbn; eauto.
    destruct (default JUndefined (lookup_prop "maxAge" cps)); eauto. }
  split; [exact Httl |]. destruct Httl as (seconds & Httl).
  rewrite set_run, Httl. cbn zeta. repeat case_match; reflexivity.
Qed.

Lemma constructed_adapter_sets_records_with_a_cookie_witness :
  (set ttlFunc (new None) "test-sid" sessionData (start (healthy ∅))).1 = Return tt.
Proof.
  apply (proj2 (constructed_adapter_sets_records_with_a_cookie ttlFunc None "test-sid" sessionData
                  (healthy ∅) eq_refl)).
Defined.

(** X25. A [ttl] override that is a text of decimal digits acts as the number
    the digits write (zero for the empty text): the TTL resolved is the
    same, and so is every run of [set]. *)
Theorem digits_override_is_its_number call this sess sid s :
  ttl this = JStr s -> Json.all_chars is_digit s = true ->
  let this' := {| config := config this; ttl := JNum (Num.of_Z (digits_value 10 0 s)) |} in
  getTTL call this sess sid = getTTL call this' sess sid
  /\ forall r, set call this sid sess r = set call this' sid sess r.
Proof.
  intros Ht Hs. cbn zeta.
  assert (Httl : getTTL call this sess sid
                 = getTTL call {| config := config this;
                                  ttl := JNum (Num.of_Z (digits_value 10 0 s)) |} sess sid).
  { unfold getTTL, getRawTTL. rewrite Ht. cbn [ttl]. rewrite (StringToNumber_digits s Hs).
    reflexivity. }
  split; [exact Httl |]. intros r. unfold set. rewrite Httl. reflexivity.
Qed.

Lemma digits_override_is_its_number_witness :
  getTTL ttlFunc (with_ttl (JStr "666")) JNull EmptyString
  = getTTL ttlFunc (with_ttl (JNum (Num.of_Z 666))) JNull EmptyString.
Proof.
  apply (proj1 (digits_override_is_its_number ttlFunc (with_ttl (JStr "666")) JNull EmptyString
                  "666" eq_refl eq_refl)).
Defined.

End KeysAndTTL.

(** ** The first release and the present one *)

Section Versions.

Import Etcd3Store Fixtures.

(** X26. In the first release an error of TTL resolution reached the
    callback of [set]; the present [set] throws it. *)
Theorem legacy_set_reported_ttl_errors call this sid sess c e :
  getTTL call this sess sid = Throw e ->
  Legacy.set call this sid sess (start c)
  = (Return tt, {| client := c; trace := [Callback e JUndefined] |})
  /\ set call this sid sess (start c) = (Throw e, start c).
Proof.
  intros H. split.
  - rewrite legacy_set_run. apply getTTL_throws in H. rewrite H. reflexivity.
  - rewrite set_run, H. reflexivity.
Qed.

Lemma legacy_set_reported_ttl_errors_witness :
  Legacy.set ttlFunc (with_ttl (JObj [])) "test-sid" sessionData (start (healthy ∅))
  = (Return tt,
     {| client := healthy ∅;
        trace := [Callback (TypeError "`store.ttl` must be a number or function.") JUndefined] |}).
Proof.
  apply (proj1 (legacy_set_reported_ttl_errors ttlFunc (with_ttl (JObj [])) "test-sid" sessionData
                  (healthy ∅) (TypeError "`store.ttl` must be a number or function.") eq_refl)).
Defined.

(** X27. Every operation of the first release returned normally, called
    the callback exactly once and left no rejection unhandled, whether
    the client threw, rejected or answered, and whatever the [ttl]
    override. *)
Theorem legacy_operations_call_back_once call this op c :
  (Legacy.perform call this op (start c)).1 = Return tt
  /\ (exists err value,
        List.filter is_callback (trace (Legacy.perform call this op (start c)).2)
        = [Callback err value])
  /\ List.filter is_unhandled (trace (Legacy.perform call this op (start c)).2) = [].
Proof.
  destruct op; cbn [Legacy.perform]; unfold Legacy.touch; rewrite ?legacy_set_run.
  2, 3: cbn zeta; cases; eauto 10.
  all: unfold_legacy; unfold settle; cases; eauto 10.
Qed.

(** X28. When the raw TTL does not exceed the cap, the present [set]
    asks the client what the first release asked (and then releases the
    lease), leaves the same store, and reports the same error, with
    [null] for an [undefined] one. *)
Theorem set_agrees_with_legacy_below_cap call this sid sess c raw :
  Legacy.getTTL call this sess sid = Return raw -> Num.gt raw maxTTL = false ->
  client (set call this sid sess (start c)).2 = client (Legacy.set call this sid sess (start c)).2
  /\ requests (trace (set call this sid sess (start c)).2)
     = calls (trace (Legacy.set call this sid sess (start c)).2)
  /\ map default_null (errors (trace (set call this sid sess (start c)).2))
     = map default_null (errors (trace (Legacy.set call this sid sess (start c)).2)).
Proof.
  intros Hraw Hcap. rewrite set_run, legacy_set_run, Hraw.
  unfold getTTL. rewrite <- legacy_getTTL_raw, Hraw, Hcap. cbn zeta.
  unfold requests, calls, errors.
  repeat case_match; cbn; repeat split.
  all: match goal with |- context [default_null ?e] => destruct e; reflexivity | _ => idtac end.
Qed.

Lemma set_agrees_with_legacy_below_cap_witness :
  client (set ttlFunc (new None) "abc" sessionData (start (healthy ∅))).2
  = client (Legacy.set ttlFunc (new None) "abc" sessionData (start (healthy ∅))).2.
Proof.
  apply (proj1 (set_agrees_with_legacy_below_cap ttlFunc (new None) "abc" sessionData (healthy ∅)
                  (Num.of_Z 0) ltac:(vm_compute; reflexivity) ltac:(vm_compute; reflexivity))).
Defined.

End Versions.
